(** * sappy: licence detection by text similarity

    A shallow embedding of [sappy.py]: the text normaliser [clean], the
    template loader [load_license_templates] and the classifier
    [detect_license], with the properties the specification states about
    them.

    Conventions of the embedding.
    - A Python [str] is a [string]; the embedding covers ASCII text, so the
      character classes of [re] and [str] are given on code points 0..127
      and a code point above 127 is outside the model.
    - A Python exception is a value [Raise e] of the [result] type; code that
      can raise runs in that error monad.
    - A [numpy.float64] is a [spec_float] in binary64 (53 bits of mantissa,
      exponent bound 1024), with its NaN, infinities and signed zeros.
    - The libraries the program calls but does not define are parameters:
      NLTK's [PorterStemmer.stem], scikit-learn's [TfidfVectorizer] and
      SciPy's sparse row product.  What a theorem needs of them is a
      hypothesis of that theorem. *)

From Stdlib Require Import Bool Arith List ZArith Lia.
From Stdlib Require Import Ascii String.
From Stdlib Require Import Floats.SpecFloat.
Import ListNotations.

Local Open Scope list_scope.
Local Open Scope string_scope.
Local Open Scope nat_scope.

(** * The program

    ** Built-in string operations *)

Module Py.

Definition SPACE : ascii := " "%char.
Definition LF : ascii := ascii_of_nat 10.
Definition CR : ascii := ascii_of_nat 13.
Definition HYPHEN : ascii := "-"%char.

Definition between (lo hi : nat) (c : ascii) : bool :=
  let n := nat_of_ascii c in (lo <=? n) && (n <=? hi).

Definition is_upper (c : ascii) : bool := between 65 90 c.
Definition is_lower (c : ascii) : bool := between 97 122 c.
Definition is_digit (c : ascii) : bool := between 48 57 c.
Definition is_alpha (c : ascii) : bool := is_upper c || is_lower c.

(** [\w] of [re] on ASCII: letters, digits and the underscore. *)
Definition re_w (c : ascii) : bool :=
  is_alpha c || is_digit c || Ascii.eqb c "_".

(** [\d] of [re] on ASCII. *)
Definition re_d (c : ascii) : bool := is_digit c.

(** [str.isspace] on ASCII: tab to carriage return, the four separators
    28..31, and the space. *)
Definition isspace (c : ascii) : bool :=
  between 9 13 c || between 28 31 c || Ascii.eqb c SPACE.

Definition lower_char (c : ascii) : ascii :=
  if is_upper c then ascii_of_nat (nat_of_ascii c + 32) else c.

Definition upper_char (c : ascii) : ascii :=
  if is_lower c then ascii_of_nat (nat_of_ascii c - 32) else c.

Fixpoint map_chars (f : ascii -> ascii) (s : string) : string :=
  match s with
  | EmptyString => EmptyString
  | String c s' => String (f c) (map_chars f s')
  end.

(** [s.lower()] and [s.upper()] on ASCII text: a letter above code point
    127 is left as it is (where Python maps it, sometimes to more than one
    character), so what is stated of them is stated of ASCII strings. *)
Definition lower (s : string) : string := map_chars lower_char s.
Definition upper (s : string) : string := map_chars upper_char s.

(** [re.sub(p, r, s)] for a pattern [p] that matches one character (a
    character class or a literal) and a replacement [r] of one character. *)
Definition sub (p : ascii -> bool) (r : ascii) (s : string) : string :=
  map_chars (fun c => if p c then r else c) s.

(** [s.replace('  ', ' ')]: one pass from the left over the occurrences
    of two spaces that do not overlap. *)
Fixpoint replace_2sp (s : string) : string :=
  match s with
  | EmptyString => EmptyString
  | String c s' =>
      match s' with
      | String c' s'' =>
          if Ascii.eqb c SPACE && Ascii.eqb c' SPACE
          then String SPACE (replace_2sp s'')
          else String c (replace_2sp s')
      | EmptyString => String c EmptyString
      end
  end.

(** [s.split(' ')]: the pieces between single spaces, empty ones kept. *)
Fixpoint split_sp (s : string) : list string :=
  match s with
  | EmptyString => [EmptyString]
  | String c s' =>
      if Ascii.eqb c SPACE then EmptyString :: split_sp s'
      else match split_sp s' with
           | t :: ts => String c t :: ts
           | [] => [String c EmptyString]
           end
  end.

Fixpoint lstrip (s : string) : string :=
  match s with
  | EmptyString => EmptyString
  | String c s' => if isspace c then lstrip s' else s
  end.

Fixpoint rstrip (s : string) : string :=
  match s with
  | EmptyString => EmptyString
  | String c s' =>
      match rstrip s' with
      | EmptyString => if isspace c then EmptyString else String c EmptyString
      | r => String c r
      end
  end.

(** [s.strip()]. *)
Definition strip (s : string) : string := rstrip (lstrip s).

(** [s.endswith(suffix)]. *)
Definition endswith (suffix s : string) : bool :=
  (String.length suffix <=? String.length s) &&
  String.eqb (substring (String.length s - String.length suffix)
                        (String.length suffix) s) suffix.

(** [s[:-4]]. *)
Definition drop_last4 (s : string) : string :=
  substring 0 (String.length s - 4) s.

(** The newline translation of a file opened in text mode, as
    [open(filename, 'r')] does: [\r\n] and a lone [\r] are read as [\n]. *)
Fixpoint universal_newlines (s : string) : string :=
  match s with
  | EmptyString => EmptyString
  | String c s' =>
      if Ascii.eqb c CR then
        match s' with
        | String c' s'' =>
            if Ascii.eqb c' LF then String LF (universal_newlines s'')
            else String LF (universal_newlines s')
        | EmptyString => String LF EmptyString
        end
      else String c (universal_newlines s')
  end.

(** [f.readlines()] on the text of a file, newlines translated: the lines,
    each with its newline; no line for an empty text. *)
Fixpoint readlines (s : string) : list string :=
  match s with
  | EmptyString => []
  | String c s' =>
      if Ascii.eqb c LF then String c EmptyString :: readlines s'
      else match readlines s' with
           | l :: ls => String c l :: ls
           | [] => [String c EmptyString]
           end
  end.

End Py.

(** ** Exceptions *)

Inductive exn : Set :=
  | OSError | UnicodeDecodeError | TypeError | ValueError | IndexError.

Inductive result (A : Type) : Type :=
  | Ok (a : A)
  | Raise (e : exn).
Arguments Ok {A} a.
Arguments Raise {A} e.

Definition bind {A B : Type} (r : result A) (k : A -> result B) : result B :=
  match r with
  | Ok a => k a
  | Raise e => Raise e
  end.

Notation "x <- r ;; k" := (bind r (fun x => k))
  (at level 61, r at next level, right associativity).
Notation "' p <- r ;; k" := (bind r (fun x => let p := x in k))
  (at level 61, p pattern, r at next level, right associativity).

(** [xs[i]] for [0 <= i]. *)
Definition getitem {A : Type} (xs : list A) (i : nat) : result A :=
  match nth_error xs i with
  | Some x => Ok x
  | None => Raise IndexError
  end.

(** [xs[-1]]. *)
Definition getlast {A : Type} (xs : list A) : result A :=
  match rev xs with
  | x :: _ => Ok x
  | [] => Raise IndexError
  end.

(** [functools.reduce(f, xs)] with no initial value. *)
Definition reduce1 {A : Type} (f : A -> A -> A) (xs : list A) : result A :=
  match xs with
  | [] => Raise TypeError
  | x :: xs' => Ok (fold_left f xs' x)
  end.

(** ** The text normaliser *)

(** The character class [[^\w\d ]]. *)
Definition punctuation (c : ascii) : bool :=
  negb (Py.re_w c || Py.re_d c || Ascii.eqb c Py.SPACE).

Section Normaliser.

(** [PorterStemmer().stem]. *)
Variable stem : string -> string.

Definition clean (document : string) : string :=
  let document := Py.sub punctuation Py.SPACE document in
  let document := Py.lower (Py.replace_2sp document) in
  let cleaned_document :=
    fold_left (fun acc token => acc ++ " " ++ stem token)
              (Py.split_sp document) "" in
  Py.strip cleaned_document.

End Normaliser.

(** The tokens [clean] hands to the stemmer: [document.split(' ')] after the
    substitution, the replacement and the lowering. *)
Definition tokens (document : string) : list string :=
  Py.split_sp (Py.lower (Py.replace_2sp (Py.sub punctuation Py.SPACE document))).

(** ** Floating point *)

Definition float : Set := spec_float.
Definition prec : Z := 53.
Definition emax : Z := 1024.

Definition fmul : float -> float -> float := SFmul prec emax.
Definition fdiv : float -> float -> float := SFdiv prec emax.
Definition fgt (x y : float) : bool := SFltb y x.

Definition pos_zero : float := S754_zero false.
Definition neg_one : float := Eval vm_compute in SFopp (SFone prec emax).

(** [math.sqrt]: a domain error below zero. *)
Definition math_sqrt (x : float) : result float :=
  if SFltb x pos_zero then Raise ValueError else Ok (SFsqrt prec emax x).

(** ** The file system *)

(** What [open(filename, 'r')] and [readlines] find: a file that cannot be
    opened, one whose bytes do not decode, or the decoded text, as it is
    stored (before the translation of newlines). *)
Inductive file : Set :=
  | NoAccess
  | Undecodable
  | Text (content : string).

Record filesystem : Set := {
  listdir : string -> option (list string);
  open : string -> file
}.

(** ** The vectoriser *)

(** [TfidfVectorizer] and the sparse rows it returns.  [fit] learns the
    vocabulary and the idf weights from the documents, or fails with
    [ValueError] (no document has a token); [transform] gives one row per
    document; [row_product v w] is [(v * w.T)[0, 0]]. *)
Record vectorizer : Type := {
  model : Type;
  row : Type;
  fit : list string -> option model;
  transform : model -> string -> row;
  row_product : row -> row -> float
}.

Definition fit_transform (V : vectorizer) (raw_documents : list string)
  : result (list (row V)) :=
  match fit V raw_documents with
  | Some m => Ok (map (transform V m) raw_documents)
  | None => Raise ValueError
  end.

(** ** The loader and the classifier *)

Definition TEMPLATES_DIR : string := "license-templates/".

Section Classifier.

Variable stem : string -> string.
Variable V : vectorizer.

Definition prepare_license_file (fs : filesystem) (filename : string)
  : result string :=
  match open fs filename with
  | NoAccess => Raise OSError
  | Undecodable => Raise UnicodeDecodeError
  | Text content =>
      let lines := Py.readlines (Py.universal_newlines content) in
      raw_text <- reduce1 (fun s1 s2 => s1 ++ s2) lines ;;
      Ok (clean stem raw_text)
  end.

(** [sub('-', ' ', lic_fn[:-4].upper())]. *)
Definition license_name (lic_fn : string) : string :=
  Py.sub (Ascii.eqb Py.HYPHEN) Py.SPACE (Py.upper (Py.drop_last4 lic_fn)).

(** The [for] loop of [load_license_templates], with the two lists it
    appends to. *)
Fixpoint load_each (fs : filesystem) (license_filenames names licenses : list string)
  : result (list string * list string) :=
  match license_filenames with
  | [] => Ok (names, licenses)
  | lic_fn :: rest =>
      let names := (names ++ [license_name lic_fn])%list in
      license <- prepare_license_file fs (TEMPLATES_DIR ++ lic_fn) ;;
      load_each fs rest names (licenses ++ [license])%list
  end.

Definition load_license_templates (fs : filesystem)
  : result (list string * list string) :=
  match listdir fs TEMPLATES_DIR with
  | None => Raise OSError
  | Some entries =>
      let license_filenames := filter (Py.endswith ".txt") entries in
      load_each fs license_filenames [] []
  end.

Definition dot (v w : row V) : float := row_product V v w.

Definition cosine_similarity (v w : row V) : result float :=
  dist_v <- math_sqrt (dot v v) ;;
  dist_w <- math_sqrt (dot w w) ;;
  Ok (fdiv (dot v w) (fmul dist_v dist_w)).

(** The search loop of [detect_license] over [range(0, len(licenses))]. *)
Fixpoint most_similar (tfidf : list (row V)) (vectorized_document : row V)
    (indices : list nat) (index_of_most_similar_license : nat)
    (max_similarity : float) : result nat :=
  match indices with
  | [] => Ok index_of_most_similar_license
  | i :: rest =>
      next_license <- getitem tfidf i ;;
      cos <- cosine_similarity vectorized_document next_license ;;
      if fgt cos max_similarity
      then most_similar tfidf vectorized_document rest i cos
      else most_similar tfidf vectorized_document rest
             index_of_most_similar_license max_similarity
  end.

Definition detect_license (fs : filesystem) (document : string) (cleaned : bool)
  : result string :=
  '(names, licenses) <- load_license_templates fs ;;
  let cleaned_doc := if cleaned then document else clean stem document in
  tfidf <- fit_transform V (licenses ++ [cleaned_doc])%list ;;
  vectorized_document <- getlast tfidf ;;
  index_of_most_similar_license <-
    most_similar tfidf vectorized_document (seq 0 (List.length licenses)) 0 neg_one ;;
  getitem names index_of_most_similar_license.

End Classifier.

(** ** The command line

    What [main] and [parse_args] do is a list of printed lines and a way of
    ending: a normal return, the [SystemExit] of [sys.exit], or an
    exception.  What [argparse] makes of the command line (the options, or
    an exit of its own) and the answers of [requests.get] are inputs. *)

Inductive outcome (A : Type) : Type :=
  | Returned (a : A)
  | SystemExit (status : Z)
  | Raised (e : exn).
Arguments Returned {A} a.
Arguments SystemExit {A} status.
Arguments Raised {A} e.

(** [parser.parse_args().__dict__]. *)
Record arguments : Set := {
  branch : string;
  repository_name : option string;
  username : option string;
  url : option string
}.

(** What [parser.parse_args()] makes of [sys.argv]: the namespace of the
    four options, or one of argparse's own exits: after [-h], with the help
    on standard output and status 0, or after a usage error (an unknown or
    ambiguous option, a missing value), with status 2 and a message on
    standard error, which is not among the printed lines. *)
Inductive parsed : Set :=
  | Namespace (arg_dict : arguments)
  | Help (message : list string)
  | UsageError.

(** A response of [requests.get]. *)
Record response : Set := {
  ok : bool;
  text : string
}.

(** [requests.get]: the response, or [None] when the call raises. *)
Definition network : Set := string -> option response.

Fixpoint count_s (s : string) : nat :=
  match s with
  | String c s' => if Ascii.eqb c "s" then S (count_s s') else 0
  | EmptyString => 0
  end.

Fixpoint drop (n : nat) (s : string) : string :=
  match n, s with
  | S n', String _ s' => drop n' s'
  | _, _ => s
  end.

(** The length of the match of [https+:\/\/] at the start of [s]. *)
Definition match_scheme (s : string) : option nat :=
  if prefix "http" s then
    let k := count_s (drop 4 s) in
    if (1 <=? k) && prefix "://" (drop (4 + k) s) then Some (4 + k + 3) else None
  else None.

(** [sub('https+:\/\/', '', s)], with [skip] characters of a match still to
    delete. *)
Fixpoint sub_scheme_from (skip : nat) (s : string) : string :=
  match s with
  | EmptyString => EmptyString
  | String c s' =>
      match skip with
      | S k => sub_scheme_from k s'
      | 0 =>
          match match_scheme s with
          | Some (S l) => sub_scheme_from l s'
          | _ => String c (sub_scheme_from 0 s')
          end
      end
  end.

Definition sub_scheme (s : string) : string := sub_scheme_from 0 s.

(** Where the scan of [findall('\/{1}([^\/]+)', s)] stands: outside a match,
    after a slash that may start one, or inside the group of a match. *)
Inductive scan : Set :=
  | Outside
  | AfterSlash
  | InGroup (group : string).

Fixpoint findall_from (st : scan) (s : string) : list string :=
  match s with
  | EmptyString =>
      match st with InGroup g => [g] | _ => [] end
  | String c s' =>
      if Ascii.eqb c "/" then
        match st with
        | InGroup g => g :: findall_from AfterSlash s'
        | _ => findall_from AfterSlash s'
        end
      else
        match st with
        | Outside => findall_from Outside s'
        | AfterSlash => findall_from (InGroup (String c EmptyString)) s'
        | InGroup g => findall_from (InGroup (g ++ String c EmptyString)) s'
        end
  end.

(** [findall('\/{1}([^\/]+)', s)]: the groups of the matches. *)
Definition findall_segments (s : string) : list string := findall_from Outside s.

Definition USAGE : list string :=
  [ "Usage: --user <USERNAME> --repo <REPOSITORY NAME> --branch<BRANCH NAME> (optional) or ";
    "--url <LINK TO REPOSITORY>" ].

Definition parse_args (argv : parsed)
  : list string * outcome (string * string * string) :=
  match argv with
  | Help message => (message, SystemExit 0)
  | UsageError => ([], SystemExit 2)
  | Namespace arg_dict =>
      let branch := branch arg_dict in
      let user := username arg_dict in
      let repo := repository_name arg_dict in
      let url := url arg_dict in
      match user, repo with
      | Some user, Some repo => ([], Returned (user, repo, branch))
      | _, _ =>
          match url with
          | None => (USAGE, SystemExit (-1))
          | Some url =>
              let chopped_url := sub_scheme url in
              match findall_segments chopped_url with
              | [user; repo] => ([], Returned (user, repo, branch))
              | _ => ([], Raised ValueError)
              end
          end
      end
  end.

(** [[name + format for name in names for format in formats]]. *)
Definition license_files : list string :=
  let names := ["LICENSE"; "LEGAL"; "COPYRIGHT"; "COPYING"] in
  let formats := [""; ".md"; ".txt"] in
  flat_map (fun name => map (fun format => name ++ format) formats) names.

Section CommandLine.

Variable stem : string -> string.
Variable V : vectorizer.

(** The [for] loop of [main] over the file names left to try. *)
Fixpoint try_license_files (net : network) (fs : filesystem) (url blob_url : string)
    (fnames : list string) : list string * outcome unit :=
  match fnames with
  | [] => (["License file not found in specified repository."], Returned tt)
  | fname :: rest =>
      match net (url ++ fname) with
      | None => (["Unable connect to the Internet."], Returned tt)
      | Some r1 =>
          match net (blob_url ++ fname) with
          | None => (["Unable connect to the Internet."], Returned tt)
          | Some r2_blob =>
              let request := if ok r1 then r1 else r2_blob in
              if ok request then
                match detect_license stem V fs (text request) false with
                | Ok license =>
                    ([ "License file found. Trying to detect its name.";
                       "This repository is probably licensed under " ++ license
                         ++ " license." ],
                     Returned tt)
                | Raise e =>
                    (["License file found. Trying to detect its name."], Raised e)
                end
              else try_license_files net fs url blob_url rest
          end
      end
  end.

Definition main (argv : parsed) (net : network) (fs : filesystem)
  : list string * outcome unit :=
  match parse_args argv with
  | (out, Returned (user, repo, branch)) =>
      let url := "https://raw.github.com/" ++ user ++ "/" ++ repo ++ "/" ++ branch ++ "/" in
      let blob_url :=
        "https://raw.github.com/" ++ user ++ "/" ++ repo ++ "/blob/" ++ branch ++ "/" in
      let searching :=
        "Arguments parsed. Searching for a license file in a " ++ user ++ "/" ++ repo in
      let '(printed, end_) := try_license_files net fs url blob_url license_files in
      ((out ++ searching :: printed)%list, end_)
  | (out, SystemExit status) => (out, SystemExit status)
  | (out, Raised e) => (out, Raised e)
  end.

End CommandLine.

(** * The vocabulary of the statements

    ** Text *)

Fixpoint all_chars (p : ascii -> bool) (s : string) : bool :=
  match s with
  | EmptyString => true
  | String c s' => p c && all_chars p s'
  end.

(** The characters of [[a-z0-9 ]]. *)
Definition normal_char (c : ascii) : bool :=
  Py.is_lower c || Py.is_digit c || Ascii.eqb c Py.SPACE.

(** ASCII letters, digits and the space. *)
Definition alnum_space (c : ascii) : bool :=
  Py.is_alpha c || Py.is_digit c || Ascii.eqb c Py.SPACE.

(** [string.punctuation]. *)
Definition ascii_punctuation (c : ascii) : bool :=
  Py.between 33 47 c || Py.between 58 64 c || Py.between 91 96 c || Py.between 123 126 c.

Definition lower_alnum (c : ascii) : bool := Py.is_lower c || Py.is_digit c.

(** The characters of [[a-z0-9_]]. *)
Definition word_char (c : ascii) : bool := lower_alnum c || Ascii.eqb c "_".

Definition word_or_space (c : ascii) : bool := word_char c || Ascii.eqb c Py.SPACE.

Definition is_ascii (c : ascii) : bool := nat_of_ascii c <? 128.

Fixpoint starts_with_spaces (n : nat) (s : string) : bool :=
  match n with
  | 0 => true
  | S n' =>
      match s with
      | String c s' => Ascii.eqb c Py.SPACE && starts_with_spaces n' s'
      | EmptyString => false
      end
  end.

(** [s] holds [n] consecutive spaces somewhere. *)
Fixpoint has_space_run (n : nat) (s : string) : bool :=
  match s with
  | EmptyString => starts_with_spaces n s
  | String _ s' => starts_with_spaces n s || has_space_run n s'
  end.

Fixpoint spaces (n : nat) : string :=
  match n with
  | 0 => EmptyString
  | S n' => String Py.SPACE (spaces n')
  end.

(** A non-empty string of lower-case letters and digits. *)
Definition is_word (w : string) : bool :=
  negb (String.eqb w "") && all_chars lower_alnum w.

Definition words_only (S : list string) : Prop :=
  Forall (fun s => is_word s = true) S.

(** The stemmer sends the token to a word that it leaves unchanged. *)
Definition stable_token (stem : string -> string) (t : string) : bool :=
  String.eqb t "" || (is_word (stem t) && String.eqb (stem (stem t)) (stem t)).

(** The step of the [reduce] in [clean]. *)
Definition glue (stem : string -> string) (acc token : string) : string :=
  acc ++ " " ++ stem token.

(** The empty token [split] puts in front of a text that is empty or
    starts with a space. *)
Definition lead (s : string) : list string :=
  match s with
  | EmptyString => [""]
  | String c _ => if Ascii.eqb c Py.SPACE then [""] else []
  end.

(** ** The corpus *)

(** The template files of a listing, in the order of the listing. *)
Definition license_filenames (entries : list string) : list string :=
  filter (Py.endswith ".txt") entries.

(** The template directory cannot be listed, or lists no [.txt] entry. *)
Definition no_templates (fs : filesystem) : bool :=
  match listdir fs TEMPLATES_DIR with
  | None => true
  | Some entries =>
      match license_filenames entries with [] => true | _ :: _ => false end
  end.

(** Two states of the file system hold the same corpus when the template
    directory lists the same entries in the same order and the listed
    template files read the same. *)
Definition same_corpus (fs1 fs2 : filesystem) : Prop :=
  listdir fs1 TEMPLATES_DIR = listdir fs2 TEMPLATES_DIR /\
  forall entries fn,
    listdir fs1 TEMPLATES_DIR = Some entries ->
    In fn (license_filenames entries) ->
    open fs1 (TEMPLATES_DIR ++ fn) = open fs2 (TEMPLATES_DIR ++ fn).

(** The error kinds the specification names, and the kind an exception of
    the program stands for: an [OSError] is a file-system error, a
    [UnicodeDecodeError] an encoding error.  The program defines no
    exception of its own, and the interpreter's [TypeError], [ValueError]
    and [IndexError] are of none of the kinds. *)
Inductive error_kind : Set := FileSystemError | EncodingError | ConfigurationError.

Definition kind_of (e : exn) : option error_kind :=
  match e with
  | OSError => Some FileSystemError
  | UnicodeDecodeError => Some EncodingError
  | TypeError | ValueError | IndexError => None
  end.

(** ** Similarities *)

Definition is_zero (x : float) : bool :=
  match x with S754_zero _ => true | _ => false end.

Definition one : float := Eval vm_compute in SFone prec emax.

(** The candidate text the vectoriser is given. *)
Definition cleaned_doc (stem : string -> string) (document : string) (cleaned : bool)
  : string :=
  if cleaned then document else clean stem document.

(** The similarities of the templates to the candidate, in corpus order. *)
Definition similarities (V : vectorizer) (m : model V) (candidate : string)
    (licenses : list string) (scores : list float) : Prop :=
  Forall2 (fun license s =>
             cosine_similarity V (transform V m candidate) (transform V m license) = Ok s)
          licenses scores.

(** [scores] are the similarities the search loop computes, row by row. *)
Definition scored (V : vectorizer) (tfidf : list (row V)) (vectorized_document : row V)
    (scores : list float) : Prop :=
  forall j s, nth_error scores j = Some s ->
    exists r, nth_error tfidf j = Some r /\
              cosine_similarity V vectorized_document r = Ok s.


(** * Stand-ins for the libraries

    Small executable instances of the parameters and concrete directories,
    to run the program on concrete inputs. *)

(** Drops the final s of a word of more than three characters. *)
Definition plural_stem (w : string) : string :=
  if (3 <? String.length w) && Py.endswith "s" w
  then substring 0 (String.length w - 1) w else w.

Definition words (doc : string) : list string :=
  filter (fun t => negb (String.eqb t "")) (Py.split_sp doc).

Definition float_of_Z (z : Z) : float := binary_normalize prec emax z 0 false.

Fixpoint count_product (v w : list Z) : Z :=
  match v, w with
  | x :: v', y :: w' => (x * y + count_product v' w')%Z
  | _, _ => 0%Z
  end.

(** Term counts over the words of the documents, with no idf weighting. *)
Definition count_vectorizer : vectorizer := {|
  model := list string;
  row := list Z;
  fit := fun docs =>
    match nodup string_dec (flat_map words docs) with
    | [] => None
    | vocabulary => Some vocabulary
    end;
  transform := fun vocabulary doc =>
    map (fun term => Z.of_nat (count_occ string_dec (words doc) term)) vocabulary;
  row_product := fun v w => float_of_Z (count_product v w)
|}.

(** A template directory with the given files, in listing order. *)
Definition template_dir (files : list (string * file)) : filesystem := {|
  listdir := fun d =>
    if String.eqb d TEMPLATES_DIR then Some (map fst files) else None;
  open := fun f =>
    match find (fun p => String.eqb (TEMPLATES_DIR ++ fst p) f) files with
    | Some p => snd p
    | None => NoAccess
    end
|}.

Definition MIT_TEXT : string := "Permission is hereby granted, free of charge".

Definition tie_fs : filesystem := template_dir
  [ ("apache-2.0.txt", Text "Licensed under the Apache License");
    ("notes.md", Text "not a template");
    ("mit.txt", Text "Permission is hereby granted");
    ("mit-0.txt", Text "permission granted hereby, is!") ].

Definition tie_fs_later : filesystem := template_dir
  [ ("apache-2.0.txt", Text "Licensed under the Apache License");
    ("notes.md", Text "edited between the two calls");
    ("mit.txt", Text "Permission is hereby granted");
    ("mit-0.txt", Text "permission granted hereby, is!") ].


(** Two lines with a blank line between them, stored with the line end
    CR LF. *)
Definition CRLF_TEXT : string :=
  "foo" ++ String Py.CR (String Py.LF (String Py.CR (String Py.LF "bar"))).

Definition crlf_fs : filesystem := template_dir [ ("crlf.txt", Text CRLF_TEXT) ].

Definition blank_fs : filesystem := template_dir
  [ ("blank.txt", Text (String Py.LF "")) ].

Definition empty_file_fs : filesystem := template_dir
  [ ("mit.txt", Text MIT_TEXT); ("unlicense.txt", Text "") ].

Definition empty_fs : filesystem := template_dir
  [ ("README", Text "the templates were moved") ].

Definition missing_fs : filesystem := {|
  listdir := fun _ => None;
  open := fun _ => NoAccess
|}.

(** ** The command line: vocabulary and inputs *)

Definition not_slash (c : ascii) : bool := negb (Ascii.eqb c "/").

Definition starts_with_slash (s : string) : bool :=
  match s with
  | String c _ => Ascii.eqb c "/"
  | EmptyString => false
  end.

(** [s] holds two consecutive slashes somewhere. *)
Fixpoint double_slash (s : string) : bool :=
  match s with
  | String c s' => (Ascii.eqb c "/" && starts_with_slash s') || double_slash s'
  | EmptyString => false
  end.

(** The two addresses [main] builds for a repository. *)
Definition raw_url (user repo branch : string) : string :=
  "https://raw.github.com/" ++ user ++ "/" ++ repo ++ "/" ++ branch ++ "/".

Definition blob_url (user repo branch : string) : string :=
  "https://raw.github.com/" ++ user ++ "/" ++ repo ++ "/blob/" ++ branch ++ "/".

Definition searching (user repo : string) : string :=
  "Arguments parsed. Searching for a license file in a " ++ user ++ "/" ++ repo.

(** Both requests for [fname] are answered, and neither answer is [ok]. *)
Definition absent (net : network) (url blob : string) (fname : string) : Prop :=
  exists r1 r2,
    net (url ++ fname) = Some r1 /\ net (blob ++ fname) = Some r2 /\
    ok r1 = false /\ ok r2 = false.

Definition NOT_FOUND : response := {| ok := false; text := "404: Not Found" |}.

(** A network where one address answers with a licence text. *)
Definition demo_net : network := fun u =>
  if String.eqb u "https://raw.github.com/torvalds/linux/blob/master/LICENSE.md"
  then Some {| ok := true; text := "Permission is hereby granted" |}
  else Some NOT_FOUND.

(** A network where nothing is found. *)
Definition silent_net : network := fun _ => Some NOT_FOUND.

(** A network that answers the first address asked and then breaks. *)
Definition broken_net : network := fun u =>
  if String.eqb u "https://raw.github.com/torvalds/linux/master/LICENSE"
  then Some {| ok := true; text := "Permission is hereby granted" |}
  else None.

Definition linux_args : arguments := {|
  branch := "master";
  repository_name := None;
  username := Some "ignored";
  url := Some "https://github.com/torvalds/linux"
|}.

(** ** More vocabulary *)

(** An ASCII character that is no word character: punctuation, a control
    character or white space. *)
Definition blank_char (c : ascii) : bool :=
  is_ascii c && (punctuation c || Ascii.eqb c Py.SPACE).

(** No hyphen and no lower-case letter. *)
Definition name_char (c : ascii) : bool :=
  negb (Ascii.eqb c Py.HYPHEN) && negb (Py.is_lower c).

(** What makes a template file unusable, and the exception it raises. *)
Definition file_error (f : file) : option exn :=
  match f with
  | NoAccess => Some OSError
  | Undecodable => Some UnicodeDecodeError
  | Text content => if String.eqb content "" then Some TypeError else None
  end.

(** The place of a number in the order of binary64: its class (negative
    infinity, negative, zero, positive, positive infinity), then exponent
    and mantissa; none for NaN. *)
Definition key (x : float) : option (Z * Z * Z) :=
  match x with
  | S754_nan => None
  | S754_infinity true => Some (-2, 0, 0)%Z
  | S754_infinity false => Some (2, 0, 0)%Z
  | S754_zero _ => Some (0, 0, 0)%Z
  | S754_finite false m e => Some (1, e, Zpos m)%Z
  | S754_finite true m e => Some (-1, - e, Zneg m)%Z
  end.

Definition lex_lt (a b : Z * Z * Z) : Prop :=
  let '(a1, a2, a3) := a in
  let '(b1, b2, b3) := b in
  (a1 < b1 \/ (a1 = b1 /\ (a2 < b2 \/ (a2 = b2 /\ a3 < b3))))%Z.

Definition lex_le (a b : Z * Z * Z) : Prop :=
  let '(a1, a2, a3) := a in
  let '(b1, b2, b3) := b in
  (a1 < b1 \/ (a1 = b1 /\ (a2 < b2 \/ (a2 = b2 /\ a3 <= b3))))%Z.

(** The text of a file that has one. *)
Definition file_text (f : file) : string :=
  match f with
  | Text content => content
  | _ => ""
  end.

(** The state of the search loop before index [k]: no earlier score exceeds
    the running maximum, which is the initial -1 with index 0, or the score
    at [index], the first to reach it. *)
Definition running_max (scores : list float) (k index : nat) (mx : float) : Prop :=
  (forall j s, j < k -> nth_error scores j = Some s -> SFleb s mx = true) /\
  ((index = 0 /\ mx = neg_one) \/
   (index < k /\ nth_error scores index = Some mx /\
    forall j s, j < index -> nth_error scores j = Some s -> SFltb s mx = true)).

Ltac by_cases_on_char c :=
  destruct c as [[] [] [] [] [] [] [] []]; try reflexivity; try discriminate.

(** * Properties

    ** Lists, strings and the error monad *)

Lemma getitem_Ok {A : Type} (xs : list A) (i : nat) (x : A) :
  getitem xs i = Ok x <-> nth_error xs i = Some x.
Proof.
  unfold getitem. destruct (nth_error xs i); split; intros H; inversion H; reflexivity.
Qed.

Lemma getlast_snoc {A : Type} (xs : list A) (x : A) :
  getlast (xs ++ [x])%list = Ok x.
Proof. unfold getlast. rewrite rev_app_distr. reflexivity. Qed.

Lemma Forall2_nth_error {A B : Type} (R : A -> B -> Prop) (l1 : list A) (l2 : list B)
    (i : nat) (a : A) :
  Forall2 R l1 l2 -> nth_error l1 i = Some a ->
  exists b, nth_error l2 i = Some b /\ R a b.
Proof.
  intros HF. revert i. induction HF as [|x y l1 l2 Hxy HF IH]; intros i Hi.
  - destruct i; discriminate.
  - destruct i as [|i]; simpl in *.
    + inversion Hi; subst. eauto.
    + apply IH. exact Hi.
Qed.

Lemma append_assoc (s1 s2 s3 : string) : (s1 ++ s2) ++ s3 = s1 ++ (s2 ++ s3).
Proof. induction s1 as [|c s1 IH]; simpl; [reflexivity|now rewrite IH]. Qed.

Lemma append_nil_r (s : string) : s ++ "" = s.
Proof. induction s as [|c s IH]; simpl; [reflexivity|now rewrite IH]. Qed.

Lemma all_chars_app (p : ascii -> bool) (s t : string) :
  all_chars p (s ++ t) = all_chars p s && all_chars p t.
Proof.
  induction s as [|c s IH]; simpl; [reflexivity|]. now rewrite IH, andb_assoc.
Qed.

Lemma all_chars_impl (p q : ascii -> bool) (s : string) :
  (forall c, p c = true -> q c = true) -> all_chars p s = true -> all_chars q s = true.
Proof.
  intros Hpq. induction s as [|c s IH]; simpl; [reflexivity|].
  intros H. apply andb_true_iff in H. destruct H as [Hc Hs].
  now rewrite (Hpq c Hc), IH.
Qed.

Lemma map_chars_id (p : ascii -> bool) (f : ascii -> ascii) (s : string) :
  (forall c, p c = true -> f c = c) -> all_chars p s = true -> Py.map_chars f s = s.
Proof.
  intros Hf. induction s as [|c s IH]; simpl; [reflexivity|].
  intros H. apply andb_true_iff in H. destruct H as [Hc Hs].
  now rewrite (Hf c Hc), IH.
Qed.

(** ** Character classes *)

Lemma alnum_space_facts (c : ascii) :
  alnum_space c = true -> punctuation c = false.
Proof. by_cases_on_char c. Qed.

Lemma lower_alnum_facts (c : ascii) :
  lower_alnum c = true ->
  punctuation c = false /\ Py.lower_char c = c /\
  Ascii.eqb c Py.SPACE = false /\ Py.isspace c = false.
Proof. by_cases_on_char c; intros _; repeat split. Qed.

Lemma lower_char_space (c : ascii) :
  Ascii.eqb (Py.lower_char c) Py.SPACE = Ascii.eqb c Py.SPACE.
Proof. by_cases_on_char c. Qed.

Lemma sub_punctuation_id (s : string) :
  all_chars (fun c => negb (punctuation c)) s = true ->
  Py.sub punctuation Py.SPACE s = s.
Proof.
  apply map_chars_id. intros c Hc. apply negb_true_iff in Hc. now rewrite Hc.
Qed.

(** ** Runs of spaces and the single pass *)

Lemma starts_with_spaces_lower (n : nat) (s : string) :
  starts_with_spaces n (Py.lower s) = starts_with_spaces n s.
Proof.
  revert s. induction n as [|n IH]; intros s; [reflexivity|].
  destruct s as [|c s]; simpl; [reflexivity|]. now rewrite lower_char_space, IH.
Qed.

Lemma has_space_run_lower (n : nat) (s : string) :
  has_space_run n (Py.lower s) = has_space_run n s.
Proof.
  induction s as [|c s IH].
  - reflexivity.
  - change (Py.lower (String c s)) with (String (Py.lower_char c) (Py.lower s)).
    cbn [has_space_run]. rewrite IH.
    change (String (Py.lower_char c) (Py.lower s)) with (Py.lower (String c s)).
    now rewrite starts_with_spaces_lower.
Qed.

Lemma has_space_run_2_cons (c : ascii) (s : string) :
  has_space_run 2 (String c s) =
  (Ascii.eqb c Py.SPACE && starts_with_spaces 1 s) || has_space_run 2 s.
Proof. reflexivity. Qed.

Lemma starts_with_spaces_1_cons (c : ascii) (s : string) :
  starts_with_spaces 1 (String c s) = Ascii.eqb c Py.SPACE.
Proof. simpl. apply andb_true_r. Qed.

Lemma replace_2sp_cons2 (c c' : ascii) (r : string) :
  Py.replace_2sp (String c (String c' r)) =
  if Ascii.eqb c Py.SPACE && Ascii.eqb c' Py.SPACE
  then String Py.SPACE (Py.replace_2sp r)
  else String c (Py.replace_2sp (String c' r)).
Proof. reflexivity. Qed.

Lemma replace_2sp_starts (s : string) :
  starts_with_spaces 1 (Py.replace_2sp s) = starts_with_spaces 1 s.
Proof.
  destruct s as [|c [|c' r]]; try reflexivity.
  cbn [Py.replace_2sp]. destruct (Ascii.eqb c Py.SPACE) eqn:Hc; cbn [andb].
  - destruct (Ascii.eqb c' Py.SPACE); rewrite !starts_with_spaces_1_cons;
      [now rewrite Ascii.eqb_refl | now rewrite Hc].
  - now rewrite !starts_with_spaces_1_cons.
Qed.

(** Where no three spaces are consecutive, one pass leaves no two. *)
Lemma replace_2sp_no_double (s : string) :
  has_space_run 3 s = false -> has_space_run 2 (Py.replace_2sp s) = false.
Proof.
  assert (H : forall n s, String.length s <= n ->
                has_space_run 3 s = false -> has_space_run 2 (Py.replace_2sp s) = false).
  { clear s. induction n as [|n IH]; intros s Hlen H3.
    - destruct s; [reflexivity|simpl in Hlen; lia].
    - destruct s as [|c [|c' r]]; [reflexivity| |].
      + cbn [Py.replace_2sp]. rewrite has_space_run_2_cons. simpl.
        now rewrite andb_false_r.
      + cbn [has_space_run] in H3. apply orb_false_iff in H3. destruct H3 as [Hs3 H3].
        rewrite replace_2sp_cons2.
        destruct (Ascii.eqb c Py.SPACE && Ascii.eqb c' Py.SPACE) eqn:Hcc.
        * apply andb_true_iff in Hcc. destruct Hcc as [Hc Hc'].
          cbn [starts_with_spaces] in Hs3. rewrite Hc, Hc' in Hs3. cbn [andb] in Hs3.
          apply orb_false_iff in H3. destruct H3 as [_ H3].
          rewrite has_space_run_2_cons, replace_2sp_starts. cbn [starts_with_spaces].
          rewrite Hs3, andb_false_r. cbn [orb].
          apply IH; [simpl in Hlen; lia|exact H3].
        * rewrite has_space_run_2_cons, replace_2sp_starts, starts_with_spaces_1_cons, Hcc.
          cbn [orb]. apply IH; [simpl in *; lia|].
          cbn [has_space_run]. exact H3. }
  apply (H (String.length s)). apply le_n.
Qed.

Lemma replace_2sp_id (s : string) :
  has_space_run 2 s = false -> Py.replace_2sp s = s.
Proof.
  induction s as [|c s IH]; [reflexivity|].
  rewrite has_space_run_2_cons. intros H. apply orb_false_iff in H.
  destruct H as [Hc Hs]. destruct s as [|c' r]; [reflexivity|].
  rewrite replace_2sp_cons2. rewrite starts_with_spaces_1_cons in Hc. rewrite Hc.
  now rewrite (IH Hs).
Qed.

(** One pass over a run of [n] spaces leaves [n - n / 2] of them. *)
Lemma replace_2sp_spaces (n : nat) :
  Py.replace_2sp (spaces n) = spaces (n - n / 2).
Proof.
  assert (H : forall k, Py.replace_2sp (spaces (2 * k)) = spaces k /\
                        Py.replace_2sp (spaces (2 * k + 1)) = spaces (k + 1)).
  { induction k as [|k [IH1 IH2]].
    - split; reflexivity.
    - replace (2 * S k + 1) with (S (S (2 * k + 1))) by lia.
      replace (2 * S k) with (S (S (2 * k))) by lia.
      split; cbn [spaces Py.replace_2sp]; rewrite Ascii.eqb_refl; cbn [andb].
      + now rewrite IH1.
      + rewrite IH2. replace (S k + 1) with (S (k + 1)) by lia. reflexivity. }
  destruct (Nat.even n) eqn:He.
  - apply Nat.even_spec in He. destruct He as [k ->].
    replace (2 * k - 2 * k / 2) with k.
    + apply H.
    + rewrite (Nat.mul_comm 2 k), Nat.div_mul by lia. lia.
  - assert (Ho : Nat.odd n = true) by (unfold Nat.odd; now rewrite He).
    apply Nat.odd_spec in Ho. destruct Ho as [k ->].
    replace (2 * k + 1 - (2 * k + 1) / 2) with (k + 1).
    + apply H.
    + replace ((2 * k + 1) / 2) with k; [lia|].
      apply (Nat.div_unique (2 * k + 1) 2 k 1); lia.
Qed.

(** ** The tokens of a text without double spaces *)

Lemma split_sp_cons (c : ascii) (s : string) :
  Ascii.eqb c Py.SPACE = false ->
  exists t ts, Py.split_sp s = t :: ts /\ Py.split_sp (String c s) = String c t :: ts.
Proof.
  intros Hc. cbn [Py.split_sp]. rewrite Hc.
  destruct (Py.split_sp s) as [|t ts] eqn:Hs.
  - destruct s as [|d s]; [discriminate|]. cbn [Py.split_sp] in Hs.
    destruct (Ascii.eqb d Py.SPACE); [discriminate|].
    destruct (Py.split_sp s); discriminate.
  - eauto.
Qed.

(** Without double spaces, the tokens are words, with at most one empty
    token before them and one after. *)
Lemma split_sp_shape (s : string) :
  has_space_run 2 s = false ->
  exists W E, Py.split_sp s = (lead s ++ W ++ E)%list /\
              Forall (fun w => w <> "") W /\ (E = [] \/ E = [""]).
Proof.
  induction s as [|c s IH]; intros H2.
  - exists [], []. auto.
  - rewrite has_space_run_2_cons in H2. apply orb_false_iff in H2.
    destruct H2 as [Hcs H2]. specialize (IH H2).
    destruct IH as [W [E [Hsplit [HW HE]]]].
    destruct (Ascii.eqb c Py.SPACE) eqn:Hc.
    + cbn [andb] in Hcs. cbn [lead Py.split_sp]. rewrite Hc.
      destruct s as [|d s].
      * exists [], [""]. auto.
      * rewrite starts_with_spaces_1_cons in Hcs.
        rewrite Hsplit. cbn [lead]. rewrite Hcs.
        exists W, E. auto.
    + destruct (split_sp_cons c s Hc) as [t [ts [Hs Hcons]]].
      rewrite Hcons. cbn [lead]. rewrite Hc. rewrite Hs in Hsplit.
      destruct s as [|d s].
      * inversion Hs; subst. exists [String c ""], []. repeat split; auto.
        constructor; [discriminate|constructor].
      * cbn [lead] in Hsplit. destruct (Ascii.eqb d Py.SPACE) eqn:Hd.
        -- inversion Hsplit; subst. exists (String c "" :: W), E. repeat split; auto.
           constructor; [discriminate|exact HW].
        -- destruct (split_sp_cons d s Hd) as [t' [ts' [_ Hd']]].
           rewrite Hd' in Hs. inversion Hs; subst t ts.
           destruct W as [|w W].
           ++ destruct HE as [->| ->]; discriminate.
           ++ inversion Hsplit; subst. exists (String c (String d t') :: W), E.
              inversion HW; subst. repeat split; auto.
              constructor; [discriminate|assumption].
Qed.

Lemma lead_empties (s : string) : Forall (fun e => e = "") (lead s).
Proof.
  destruct s as [|c s]; cbn [lead]; [auto|]. destruct (Ascii.eqb c Py.SPACE); auto.
Qed.

(** ** Joining the stems *)

Section Glue.

Variable stem : string -> string.

Lemma fold_glue_acc (T : list string) (acc : string) :
  fold_left (glue stem) T acc = acc ++ fold_left (glue stem) T "".
Proof.
  revert acc. induction T as [|t T IH]; intros acc; cbn [fold_left].
  - now rewrite append_nil_r.
  - rewrite (IH (glue stem acc t)), (IH (glue stem "" t)). unfold glue.
    now rewrite !append_assoc.
Qed.

Lemma fold_glue_app (T1 T2 : list string) :
  fold_left (glue stem) (T1 ++ T2)%list "" =
  fold_left (glue stem) T1 "" ++ fold_left (glue stem) T2 "".
Proof. rewrite fold_left_app. apply fold_glue_acc. Qed.

Lemma fold_glue_empties (E : list string) :
  stem "" = "" -> Forall (fun e => e = "") E ->
  fold_left (glue stem) E "" = spaces (List.length E).
Proof.
  intros H0 HE. induction HE as [|e E -> HE IH]; [reflexivity|].
  cbn [fold_left List.length spaces]. rewrite fold_glue_acc, IH.
  unfold glue. now rewrite H0.
Qed.

Lemma fold_glue_words (w : string) (W : list string) :
  fold_left (glue stem) (w :: W) "" = " " ++ String.concat " " (map stem (w :: W)).
Proof.
  revert w. induction W as [|w' W IH]; intros w.
  - reflexivity.
  - change (w :: w' :: W) with ([w] ++ w' :: W)%list.
    rewrite fold_glue_app, IH, map_app.
    change (fold_left (glue stem) [w] "") with (" " ++ stem w).
    change (String.concat " " (map stem [w] ++ map stem (w' :: W)))
      with (stem w ++ " " ++ String.concat " " (map stem (w' :: W))).
    now rewrite !append_assoc.
Qed.

End Glue.

(** ** Stripping *)

Lemma lstrip_spaces (n : nat) (s : string) : Py.lstrip (spaces n ++ s) = Py.lstrip s.
Proof. induction n as [|n IH]; [reflexivity|exact IH]. Qed.

Lemma lstrip_space_cons (s : string) : Py.lstrip (String Py.SPACE s) = Py.lstrip s.
Proof. reflexivity. Qed.

Lemma lstrip_nonspace (c : ascii) (s : string) :
  Py.isspace c = false -> Py.lstrip (String c s) = String c s.
Proof. intros H. cbn [Py.lstrip]. now rewrite H. Qed.

Lemma rstrip_app (s t : string) :
  Py.rstrip t <> "" -> Py.rstrip (s ++ t) = s ++ Py.rstrip t.
Proof.
  intros Ht. induction s as [|c s IH]; [reflexivity|].
  cbn [append Py.rstrip]. rewrite IH.
  destruct (s ++ Py.rstrip t) eqn:Hs; [|reflexivity].
  destruct s; [|discriminate]. now destruct (Ht Hs).
Qed.

Lemma rstrip_spaces (n : nat) : Py.rstrip (spaces n) = "".
Proof. induction n as [|n IH]; [reflexivity|]. cbn [spaces Py.rstrip]. now rewrite IH. Qed.

Lemma rstrip_app_spaces (s : string) (n : nat) :
  Py.rstrip (s ++ spaces n) = Py.rstrip s.
Proof.
  induction s as [|c s IH]; cbn [append Py.rstrip].
  - apply rstrip_spaces.
  - now rewrite IH.
Qed.

Lemma is_word_cons (w : string) :
  is_word w = true ->
  exists c w', w = String c w' /\ lower_alnum c = true /\ all_chars lower_alnum w' = true.
Proof.
  unfold is_word. destruct w as [|c w']; [discriminate|]. simpl.
  intros H. apply andb_true_iff in H. destruct H. eauto.
Qed.

Lemma rstrip_word (w : string) :
  all_chars lower_alnum w = true -> Py.rstrip w = w.
Proof.
  induction w as [|c w IH]; [reflexivity|]. simpl. intros H.
  apply andb_true_iff in H. destruct H as [Hc Hw]. rewrite (IH Hw).
  destruct w; [|reflexivity].
  destruct (lower_alnum_facts c Hc) as [_ [_ [_ Hsp]]]. now rewrite Hsp.
Qed.

(** ** Words joined by single spaces *)

Lemma join_words_head (s : string) (S : list string) :
  words_only (s :: S) ->
  exists c J, String.concat " " (s :: S) = String c J /\ lower_alnum c = true.
Proof.
  intros H. inversion H as [|? ? Hs HS]; subst.
  destruct (is_word_cons s Hs) as [c [w' [-> [Hc _]]]].
  destruct S; cbn [String.concat append]; eauto.
Qed.

Lemma rstrip_join (S : list string) :
  words_only S -> Py.rstrip (String.concat " " S) = String.concat " " S.
Proof.
  induction S as [|s S IH]; intros H; [reflexivity|].
  inversion H as [|? ? Hs HS]; subst.
  destruct (is_word_cons s Hs) as [c [w' [Hsw [Hc Hw']]]].
  destruct S as [|s' S].
  - cbn [String.concat]. apply rstrip_word. subst s. simpl. now rewrite Hc, Hw'.
  - change (String.concat " " (s :: s' :: S))
      with (s ++ " " ++ String.concat " " (s' :: S)).
    assert (HJ : Py.rstrip (String.concat " " (s' :: S)) = String.concat " " (s' :: S))
      by exact (IH HS).
    destruct (join_words_head s' S HS) as [d [J [HdJ _]]].
    assert (H1 : Py.rstrip (" " ++ String.concat " " (s' :: S))
                 = " " ++ String.concat " " (s' :: S)).
    { rewrite rstrip_app; rewrite HJ; [reflexivity|]. rewrite HdJ. discriminate. }
    rewrite rstrip_app; rewrite H1; [reflexivity|discriminate].
Qed.

(** The stripped concatenation the normaliser builds from empty tokens,
    words and empty tokens is the stems of the words, joined by single
    spaces. *)
Lemma strip_glue (stem : string -> string) (E1 W E2 : list string) :
  stem "" = "" ->
  Forall (fun e => e = "") E1 -> Forall (fun e => e = "") E2 ->
  words_only (map stem W) ->
  Py.strip (fold_left (glue stem) (E1 ++ W ++ E2)%list "") =
  String.concat " " (map stem W).
Proof.
  intros H0 HE1 HE2 HW. rewrite !fold_glue_app.
  rewrite (fold_glue_empties stem E1 H0 HE1), (fold_glue_empties stem E2 H0 HE2).
  unfold Py.strip. rewrite lstrip_spaces.
  destruct W as [|w W].
  - cbn [fold_left map String.concat append].
    replace (spaces (List.length E2)) with (spaces (List.length E2) ++ "")
      by apply append_nil_r.
    now rewrite lstrip_spaces.
  - rewrite fold_glue_words.
    set (J := String.concat " " (map stem (w :: W))).
    change ((" " ++ J) ++ spaces (List.length E2))
      with (String Py.SPACE (J ++ spaces (List.length E2))).
    rewrite lstrip_space_cons.
    destruct (join_words_head (stem w) (map stem W) HW) as [c [J' [HcJ Hc]]].
    change (String.concat " " (stem w :: map stem W)) with J in HcJ.
    assert (Hl : Py.lstrip (J ++ spaces (List.length E2)) = J ++ spaces (List.length E2)).
    { rewrite HcJ. cbn [append]. apply lstrip_nonspace.
      now destruct (lower_alnum_facts c Hc) as [_ [_ [_ Hsp]]]. }
    rewrite Hl, rstrip_app_spaces. apply rstrip_join. exact HW.
Qed.

Lemma has_space_run_2_word_app (w s : string) :
  all_chars lower_alnum w = true ->
  has_space_run 2 (w ++ s) = has_space_run 2 s.
Proof.
  induction w as [|c w IH]; [reflexivity|]. simpl all_chars. intros H.
  apply andb_true_iff in H. destruct H as [Hc Hw].
  cbn [append]. rewrite has_space_run_2_cons, (IH Hw).
  destruct (lower_alnum_facts c Hc) as [_ [_ [Hsp _]]]. now rewrite Hsp.
Qed.

Lemma has_space_run_2_join (S : list string) :
  words_only S -> has_space_run 2 (String.concat " " S) = false.
Proof.
  induction S as [|s S IH]; intros H; [reflexivity|].
  inversion H as [|? ? Hs HS]; subst.
  apply andb_true_iff in Hs. destruct Hs as [_ Hs].
  destruct S as [|s' S].
  - cbn [String.concat]. rewrite <- (append_nil_r s).
    now rewrite has_space_run_2_word_app.
  - change (String.concat " " (s :: s' :: S))
      with (s ++ String Py.SPACE (String.concat " " (s' :: S))).
    rewrite (has_space_run_2_word_app _ _ Hs), has_space_run_2_cons, (IH HS).
    destruct (join_words_head s' S HS) as [d [J [HdJ Hd]]]. rewrite HdJ.
    rewrite starts_with_spaces_1_cons.
    destruct (lower_alnum_facts d Hd) as [_ [_ [Hsp _]]]. now rewrite Hsp.
Qed.

Lemma split_sp_word_app (w s : string) :
  all_chars lower_alnum w = true ->
  Py.split_sp (w ++ String Py.SPACE s) = w :: Py.split_sp s.
Proof.
  induction w as [|c w IH]; simpl all_chars; intros H.
  - reflexivity.
  - apply andb_true_iff in H. destruct H as [Hc Hw].
    destruct (lower_alnum_facts c Hc) as [_ [_ [Hsp _]]].
    cbn [append Py.split_sp]. rewrite Hsp, (IH Hw). reflexivity.
Qed.

Lemma split_sp_word (w : string) :
  all_chars lower_alnum w = true -> Py.split_sp w = [w].
Proof.
  induction w as [|c w IH]; simpl all_chars; intros H.
  - reflexivity.
  - apply andb_true_iff in H. destruct H as [Hc Hw].
    destruct (lower_alnum_facts c Hc) as [_ [_ [Hsp _]]].
    cbn [Py.split_sp]. rewrite Hsp, (IH Hw). reflexivity.
Qed.

Lemma split_sp_join (s : string) (S : list string) :
  words_only (s :: S) -> Py.split_sp (String.concat " " (s :: S)) = s :: S.
Proof.
  revert s. induction S as [|s' S IH]; intros s H;
    inversion H as [|? ? Hs HS]; subst;
    apply andb_true_iff in Hs; destruct Hs as [_ Hs].
  - now apply split_sp_word.
  - change (String.concat " " (s :: s' :: S))
      with (s ++ String Py.SPACE (String.concat " " (s' :: S))).
    now rewrite (split_sp_word_app _ _ Hs), (IH s' HS).
Qed.

Lemma all_chars_join (S : list string) :
  words_only S ->
  all_chars (fun c => lower_alnum c || Ascii.eqb c Py.SPACE) (String.concat " " S) = true.
Proof.
  induction S as [|s S IH]; intros H; [reflexivity|].
  inversion H as [|? ? Hs HS]; subst.
  apply andb_true_iff in Hs. destruct Hs as [_ Hs].
  assert (Hs' : all_chars (fun c => lower_alnum c || Ascii.eqb c Py.SPACE) s = true).
  { apply (all_chars_impl lower_alnum); [|exact Hs]. intros c ->. reflexivity. }
  destruct S as [|s' S]; [exact Hs'|].
  change (String.concat " " (s :: s' :: S))
    with (s ++ String Py.SPACE (String.concat " " (s' :: S))).
  rewrite all_chars_app, Hs'. simpl. exact (IH HS).
Qed.

(** The tokens of words joined by single spaces are the words. *)
Lemma tokens_join (s : string) (S : list string) :
  words_only (s :: S) -> tokens (String.concat " " (s :: S)) = s :: S.
Proof.
  intros H. unfold tokens.
  rewrite sub_punctuation_id.
  - rewrite (replace_2sp_id _ (has_space_run_2_join _ H)).
    unfold Py.lower.
    rewrite (map_chars_id (fun c => lower_alnum c || Ascii.eqb c Py.SPACE)).
    + now apply split_sp_join.
    + intros c Hc. apply orb_true_iff in Hc. destruct Hc as [Hc|Hc].
      * now destruct (lower_alnum_facts c Hc) as [_ [Hl _]].
      * apply Ascii.eqb_eq in Hc. now subst c.
    + now apply all_chars_join.
  - apply (all_chars_impl (fun c => lower_alnum c || Ascii.eqb c Py.SPACE));
      [|now apply all_chars_join].
    intros c Hc. apply negb_true_iff. apply orb_true_iff in Hc. destruct Hc as [Hc|Hc].
    + now destruct (lower_alnum_facts c Hc) as [Hp _].
    + apply Ascii.eqb_eq in Hc. now subst c.
Qed.

(** ** The normaliser *)

(** [clean] as a function of the tokens. *)
Lemma clean_tokens (stem : string -> string) (document : string) (T : list string) :
  tokens document = T ->
  clean stem document =
  Py.strip (fold_left (fun acc token => acc ++ " " ++ stem token) T "").
Proof. intros <-. reflexivity. Qed.

(** The normaliser returns the empty text for the empty text, when the
    stemmer returns the empty token unchanged. *)
Lemma clean_empty (stem : string -> string) : stem "" = "" -> clean stem "" = "".
Proof.
  intros H0. rewrite (clean_tokens stem "" [""]) by reflexivity.
  cbn [fold_left]. now rewrite H0.
Qed.

(** The normaliser leaves words joined by single spaces as they are, when
    the stemmer leaves the words as they are. *)
Lemma clean_join_fixed (stem : string -> string) (S : list string) :
  stem "" = "" -> words_only S -> Forall (fun s => stem s = s) S ->
  clean stem (String.concat " " S) = String.concat " " S.
Proof.
  intros H0 HS Hfix.
  assert (Hmap : map stem S = S).
  { clear HS. induction Hfix as [|s S Hs _ IH]; [reflexivity|].
    cbn [map]. now rewrite Hs, IH. }
  destruct S as [|s S].
  - rewrite (clean_tokens stem _ [""]) by reflexivity.
    exact (strip_glue stem [""] [] [] H0 (Forall_cons _ eq_refl (Forall_nil _))
                      (Forall_nil _) (Forall_nil _)).
  - rewrite (clean_tokens stem _ (s :: S) (tokens_join s S HS)).
    rewrite <- Hmap at 2.
    rewrite <- (app_nil_r (s :: S)) at 1.
    apply (strip_glue stem [] (s :: S) [] H0 (Forall_nil _) (Forall_nil _)).
    now rewrite Hmap.
Qed.

(** On a single word the normaliser is the stemmer. *)
Lemma clean_word (stem : string -> string) (w : string) :
  stem "" = "" -> is_word w = true -> is_word (stem w) = true -> clean stem w = stem w.
Proof.
  intros H0 Hw Hs.
  assert (HW : words_only [w]) by (constructor; [exact Hw|constructor]).
  rewrite (clean_tokens stem w [w] (tokens_join w [] HW)).
  apply (strip_glue stem [] [w] [] H0 (Forall_nil _) (Forall_nil _)).
  constructor; [exact Hs|constructor].
Qed.

(** Where the stemmer moves the stem of a word, the normaliser is not
    idempotent on that word. *)
Lemma clean_unstable_stem (stem : string -> string) (w : string) :
  stem "" = "" ->
  is_word w = true -> is_word (stem w) = true -> is_word (stem (stem w)) = true ->
  stem (stem w) <> stem w ->
  clean stem (clean stem w) <> clean stem w.
Proof.
  intros H0 Hw Hs Hss Hne.
  rewrite (clean_word stem w H0 Hw Hs), (clean_word stem (stem w) H0 Hs Hss).
  exact Hne.
Qed.

Lemma clean_unstable_stem_witness :
  clean plural_stem (clean plural_stem "class") <> clean plural_stem "class".
Proof.
  apply (clean_unstable_stem plural_stem "class"); try reflexivity. discriminate.
Defined.

(** *** The characters of the output *)

Lemma sub_punctuation_chars (s : string) :
  all_chars (fun c => Py.re_w c || Ascii.eqb c Py.SPACE)
            (Py.sub punctuation Py.SPACE s) = true.
Proof.
  induction s as [|c s IH]; [reflexivity|].
  unfold Py.sub in *. cbn [Py.map_chars all_chars]. rewrite IH, andb_true_r.
  by_cases_on_char c.
Qed.

Lemma replace_2sp_chars (p : ascii -> bool) (s : string) :
  p Py.SPACE = true -> all_chars p s = true -> all_chars p (Py.replace_2sp s) = true.
Proof.
  intros Hsp.
  assert (H : forall n s, String.length s <= n ->
                all_chars p s = true -> all_chars p (Py.replace_2sp s) = true).
  { clear s. induction n as [|n IH]; intros s Hlen Hs.
    - destruct s; [reflexivity|simpl in Hlen; lia].
    - destruct s as [|c [|c' r]]; [reflexivity|exact Hs|].
      rewrite replace_2sp_cons2.
      cbn [all_chars] in Hs. apply andb_true_iff in Hs. destruct Hs as [Hc Hs].
      destruct (Ascii.eqb c Py.SPACE && Ascii.eqb c' Py.SPACE); cbn [all_chars].
      + rewrite Hsp. apply andb_true_iff in Hs. destruct Hs as [_ Hr].
        apply IH; [simpl in Hlen; lia|exact Hr].
      + rewrite Hc. apply IH; [simpl in *; lia|exact Hs]. }
  apply (H (String.length s)). apply le_n.
Qed.

Lemma lower_chars (s : string) :
  all_chars (fun c => Py.re_w c || Ascii.eqb c Py.SPACE) s = true ->
  all_chars word_or_space (Py.lower s) = true.
Proof.
  induction s as [|c s IH]; [reflexivity|].
  unfold Py.lower in *. cbn [Py.map_chars all_chars]. intros H.
  apply andb_true_iff in H. destruct H as [Hc Hs]. rewrite (IH Hs), andb_true_r.
  revert Hc. by_cases_on_char c.
Qed.

Lemma split_sp_chars (s : string) :
  all_chars word_or_space s = true ->
  Forall (fun t => all_chars word_char t = true) (Py.split_sp s).
Proof.
  induction s as [|c s IH]; cbn [all_chars Py.split_sp]; intros H.
  - constructor; [reflexivity|constructor].
  - apply andb_true_iff in H. destruct H as [Hc Hs]. specialize (IH Hs).
    destruct (Ascii.eqb c Py.SPACE) eqn:Hsp.
    + constructor; [reflexivity|exact IH].
    + unfold word_or_space in Hc. rewrite Hsp, orb_false_r in Hc.
      destruct (Py.split_sp s) as [|t ts].
      * constructor; [simpl; now rewrite Hc|constructor].
      * inversion IH; subst. constructor; [simpl; now rewrite Hc|assumption].
Qed.

Lemma fold_glue_chars (stem : string -> string) (T : list string) (acc : string) :
  (forall t, all_chars word_char t = true -> all_chars word_char (stem t) = true) ->
  Forall (fun t => all_chars word_char t = true) T ->
  all_chars word_or_space acc = true ->
  all_chars word_or_space (fold_left (glue stem) T acc) = true.
Proof.
  intros Hstem HT. revert acc. induction HT as [|t T Ht HT IH]; intros acc Hacc.
  - exact Hacc.
  - cbn [fold_left]. apply IH. unfold glue.
    rewrite !all_chars_app, Hacc. cbn [all_chars andb].
    apply (all_chars_impl word_char); [|exact (Hstem t Ht)].
    intros c Hc. unfold word_or_space. now rewrite Hc.
Qed.

Lemma lstrip_chars (p : ascii -> bool) (s : string) :
  all_chars p s = true -> all_chars p (Py.lstrip s) = true.
Proof.
  induction s as [|c s IH]; [reflexivity|]. cbn [Py.lstrip]. intros H.
  destruct (Py.isspace c); [|exact H].
  cbn [all_chars] in H. apply andb_true_iff in H. now apply IH.
Qed.

Lemma rstrip_chars (p : ascii -> bool) (s : string) :
  all_chars p s = true -> all_chars p (Py.rstrip s) = true.
Proof.
  induction s as [|c s IH]; [reflexivity|]. cbn [Py.rstrip all_chars]. intros H.
  apply andb_true_iff in H. destruct H as [Hc Hs]. specialize (IH Hs).
  destruct (Py.rstrip s).
  - destruct (Py.isspace c); [reflexivity|]. simpl. now rewrite Hc.
  - cbn [all_chars]. now rewrite Hc.
Qed.

(** What the normaliser does guarantee of its output: on ASCII text, when
    the stemmer returns only lower-case letters, digits and underscores for
    tokens made of them, the output holds no character outside
    [[a-z0-9_ ]]. *)
Theorem clean_output_chars (stem : string -> string) (document : string) :
  all_chars is_ascii document = true ->
  (forall t, all_chars word_char t = true -> all_chars word_char (stem t) = true) ->
  all_chars word_or_space (clean stem document) = true.
Proof.
  intros _ Hstem. unfold clean, Py.strip.
  apply rstrip_chars, lstrip_chars.
  apply (fold_glue_chars stem _ "" Hstem); [|reflexivity].
  apply split_sp_chars, lower_chars, replace_2sp_chars; [reflexivity|].
  apply sub_punctuation_chars.
Qed.

Lemma all_chars_substring (p : ascii -> bool) (n m : nat) (s : string) :
  all_chars p s = true -> all_chars p (substring n m s) = true.
Proof.
  revert n m. induction s as [|c s IH]; intros n m H.
  - destruct n, m; exact H.
  - cbn [all_chars] in H. apply andb_true_iff in H. destruct H as [Hc Hs].
    destruct n as [|n]; [destruct m as [|m]|]; cbn [substring all_chars].
    + reflexivity.
    + now rewrite Hc, IH.
    + now apply IH.
Qed.

Lemma clean_output_chars_witness :
  all_chars word_or_space (clean plural_stem "Free_of charge: to any PERSONS!") = true.
Proof.
  apply (clean_output_chars plural_stem); [reflexivity|].
  intros t Ht. unfold plural_stem.
  destruct ((3 <? String.length t) && Py.endswith "s" t); [|exact Ht].
  now apply all_chars_substring.
Defined.

Lemma replace_2sp_word_app (w s : string) :
  all_chars lower_alnum w = true -> Py.replace_2sp (w ++ s) = w ++ Py.replace_2sp s.
Proof.
  induction w as [|c w IH]; [reflexivity|]. cbn [all_chars]. intros H.
  apply andb_true_iff in H. destruct H as [Hc Hw].
  destruct (lower_alnum_facts c Hc) as [_ [_ [Hsp _]]].
  cbn [append]. rewrite <- (IH Hw).
  destruct (w ++ s) as [|c' r]; [reflexivity|].
  now rewrite replace_2sp_cons2, Hsp.
Qed.

Lemma replace_2sp_spaces_app (n : nat) (c : ascii) (r : string) :
  Ascii.eqb c Py.SPACE = false ->
  Py.replace_2sp (spaces n ++ String c r) =
  spaces (n - n / 2) ++ Py.replace_2sp (String c r).
Proof.
  intros Hc.
  assert (H : forall k,
             Py.replace_2sp (spaces (2 * k) ++ String c r) =
               spaces k ++ Py.replace_2sp (String c r) /\
             Py.replace_2sp (spaces (2 * k + 1) ++ String c r) =
               spaces (k + 1) ++ Py.replace_2sp (String c r)).
  { induction k as [|k [IH1 IH2]].
    - split; [reflexivity|]. cbn [Nat.mul Nat.add spaces append].
      now rewrite replace_2sp_cons2, Hc, andb_false_r.
    - replace (2 * S k + 1) with (S (S (2 * k + 1))) by lia.
      replace (2 * S k) with (S (S (2 * k))) by lia.
      split; cbn [spaces append]; rewrite replace_2sp_cons2, Ascii.eqb_refl; cbn [andb].
      + now rewrite IH1.
      + rewrite IH2. replace (S k + 1) with (S (k + 1)) by lia. reflexivity. }
  destruct (Nat.even n) eqn:He.
  - apply Nat.even_spec in He. destruct He as [k ->].
    replace (2 * k - 2 * k / 2) with k.
    + apply H.
    + rewrite (Nat.mul_comm 2 k), Nat.div_mul by lia. lia.
  - assert (Ho : Nat.odd n = true) by (unfold Nat.odd; now rewrite He).
    apply Nat.odd_spec in Ho. destruct Ho as [k ->].
    replace (2 * k + 1 - (2 * k + 1) / 2) with (k + 1).
    + apply H.
    + replace ((2 * k + 1) / 2) with k; [lia|].
      apply (Nat.div_unique (2 * k + 1) 2 k 1); lia.
Qed.

Lemma all_chars_spaces (p : ascii -> bool) (n : nat) :
  p Py.SPACE = true -> all_chars p (spaces n) = true.
Proof. intros H. induction n as [|n IH]; [reflexivity|]. cbn [spaces all_chars]. now rewrite H, IH. Qed.

Lemma spaces_snoc (n : nat) (s : string) :
  spaces n ++ String Py.SPACE s = String Py.SPACE (spaces n ++ s).
Proof. induction n as [|n IH]; [reflexivity|]. cbn [spaces append]. now rewrite IH. Qed.

Lemma split_sp_spaces_word (k : nat) (w : string) :
  all_chars lower_alnum w = true ->
  Py.split_sp (spaces k ++ w) = (repeat "" k ++ [w])%list.
Proof.
  intros Hw. induction k as [|k IH]; [now apply split_sp_word|].
  cbn [spaces append Py.split_sp repeat app]. now rewrite Ascii.eqb_refl, IH.
Qed.

Lemma half_up_pos (n : nat) : 1 <= n -> exists m, n - n / 2 = S m.
Proof.
  intros H. exists (n - n / 2 - 1).
  assert (n / 2 < n) by (apply Nat.div_lt; lia). lia.
Qed.

(** Two words a run of [n] spaces apart: the run shrinks to [n - n / 2]
    spaces, once. *)
Lemma clean_two_words (stem : string -> string) (w1 w2 : string) (n : nat) :
  stem "" = "" -> 1 <= n ->
  is_word w1 = true -> is_word w2 = true ->
  is_word (stem w1) = true -> is_word (stem w2) = true ->
  clean stem (w1 ++ spaces n ++ w2) = stem w1 ++ spaces (n - n / 2) ++ stem w2.
Proof.
  intros H0 Hn Hw1 Hw2 Hs1 Hs2.
  destruct (half_up_pos n Hn) as [m Hm]. rewrite Hm.
  assert (Ha1 : all_chars lower_alnum w1 = true)
    by (apply andb_true_iff in Hw1; apply Hw1).
  assert (Ha2 : all_chars lower_alnum w2 = true)
    by (apply andb_true_iff in Hw2; apply Hw2).
  assert (Hkeep : forall c, lower_alnum c || Ascii.eqb c Py.SPACE = true ->
                    punctuation c = false /\ Py.lower_char c = c).
  { intros c Hc. apply orb_true_iff in Hc. destruct Hc as [Hc|Hc].
    - destruct (lower_alnum_facts c Hc) as [Hp [Hl _]]. auto.
    - apply Ascii.eqb_eq in Hc. subst c. split; reflexivity. }
  assert (Hall : forall k, all_chars (fun c => lower_alnum c || Ascii.eqb c Py.SPACE)
                             (w1 ++ spaces k ++ w2) = true).
  { intros k. rewrite !all_chars_app.
    rewrite (all_chars_impl lower_alnum _ w1) by (try exact Ha1; intros c ->; reflexivity).
    rewrite (all_chars_impl lower_alnum _ w2) by (try exact Ha2; intros c ->; reflexivity).
    now rewrite all_chars_spaces. }
  assert (Ht : tokens (w1 ++ spaces n ++ w2) = (w1 :: repeat "" m ++ [w2])%list).
  { unfold tokens. rewrite sub_punctuation_id.
    2:{ apply (all_chars_impl (fun c => lower_alnum c || Ascii.eqb c Py.SPACE));
          [|exact (Hall n)].
        intros c Hc. apply negb_true_iff. apply (Hkeep c Hc). }
    rewrite (replace_2sp_word_app w1 _ Ha1).
    destruct (is_word_cons w2 Hw2) as [c [r [Ew2 [Hc Hr]]]].
    destruct (lower_alnum_facts c Hc) as [_ [_ [Hsp _]]].
    rewrite Ew2, (replace_2sp_spaces_app n c r Hsp), <- Ew2, Hm.
    assert (Hr2 : Py.replace_2sp w2 = w2).
    { rewrite <- (append_nil_r w2) at 1.
      now rewrite (replace_2sp_word_app w2 "" Ha2), append_nil_r. }
    rewrite Hr2. unfold Py.lower.
    rewrite (map_chars_id (fun c => lower_alnum c || Ascii.eqb c Py.SPACE))
      by (try exact (Hall (S m)); intros c' Hc'; apply (Hkeep c' Hc')).
    cbn [spaces append].
    now rewrite (split_sp_word_app w1 _ Ha1), (split_sp_spaces_word m w2 Ha2). }
  rewrite (clean_tokens stem _ _ Ht).
  change (fun acc token : string => acc ++ " " ++ stem token) with (glue stem).
  change (w1 :: repeat "" m ++ [w2])%list with ([w1] ++ repeat "" m ++ [w2])%list.
  rewrite !fold_glue_app.
  rewrite (fold_glue_empties stem (repeat "" m) H0)
    by (clear; induction m; constructor; auto).
  rewrite repeat_length.
  change (fold_left (glue stem) [w1] "") with (String Py.SPACE (stem w1)).
  change (fold_left (glue stem) [w2] "") with (String Py.SPACE (stem w2)).
  unfold Py.strip. cbn [append]. rewrite lstrip_space_cons.
  destruct (is_word_cons (stem w1) Hs1) as [c1 [r1 [E1 [Hc1 _]]]].
  destruct (lower_alnum_facts c1 Hc1) as [_ [_ [_ Hsp1]]].
  assert (Hl : Py.lstrip (stem w1 ++ spaces m ++ String Py.SPACE (stem w2)) =
               stem w1 ++ spaces m ++ String Py.SPACE (stem w2)).
  { rewrite E1. cbn [append]. now apply lstrip_nonspace. }
  rewrite Hl, spaces_snoc.
  change (String Py.SPACE (spaces m ++ stem w2)) with (spaces (S m) ++ stem w2).
  rewrite <- append_assoc.
  assert (Hs2' : all_chars lower_alnum (stem w2) = true)
    by (apply andb_true_iff in Hs2; apply Hs2).
  rewrite rstrip_app; rewrite (rstrip_word _ Hs2').
  - reflexivity.
  - destruct (is_word_cons (stem w2) Hs2) as [c2 [r2 [E2 _]]]. rewrite E2. discriminate.
Qed.

(** C3. The collapse of double spaces is one pass and no fixed point:
    between two words a run of [n] spaces is normalised to a run of
    [n - n / 2], so that two spaces become one, three become two and four
    become two.  The input [a   b], with a run of three spaces, is
    normalised to [a  b], which still holds a run of two.  The stemmer is
    taken to return the empty token and the one-letter words [a] and [b]
    unchanged, as NLTK's does for words of at most two characters. *)
Theorem clean_collapse_single_pass (stem : string -> string) :
  stem "" = "" -> stem "a" = "a" -> stem "b" = "b" ->
  (forall w1 w2 n,
     1 <= n -> is_word w1 = true -> is_word w2 = true ->
     is_word (stem w1) = true -> is_word (stem w2) = true ->
     clean stem (w1 ++ spaces n ++ w2) = stem w1 ++ spaces (n - n / 2) ++ stem w2) /\
  clean stem "a   b" = "a  b" /\
  has_space_run 3 "a   b" = true /\
  has_space_run 2 (clean stem "a   b") = true.
Proof.
  intros H0 Ha Hb.
  assert (Hab : clean stem "a   b" = "a  b").
  { change "a   b" with ("a" ++ spaces 3 ++ "b").
    rewrite (clean_two_words stem "a" "b" 3 H0); try reflexivity; try lia.
    - now rewrite Ha, Hb.
    - now rewrite Ha.
    - now rewrite Hb. }
  split; [|split; [exact Hab|split; [reflexivity|now rewrite Hab]]].
  intros w1 w2 n Hn Hw1 Hw2 Hs1 Hs2. now apply clean_two_words.
Qed.

Lemma clean_collapse_single_pass_witness :
  (forall w1 w2 n,
     1 <= n -> is_word w1 = true -> is_word w2 = true ->
     is_word (plural_stem w1) = true -> is_word (plural_stem w2) = true ->
     clean plural_stem (w1 ++ spaces n ++ w2) =
     plural_stem w1 ++ spaces (n - n / 2) ++ plural_stem w2) /\
  clean plural_stem "a   b" = "a  b" /\
  has_space_run 3 "a   b" = true /\
  has_space_run 2 (clean plural_stem "a   b") = true.
Proof.
  apply (clean_collapse_single_pass plural_stem); reflexivity.
Defined.

(** C2 at the input [_]: the underscore is a word character of [re], so the
    substitution keeps it, and the output holds a character outside
    [[a-z0-9 ]].  The stemmer is taken to return the token [_] unchanged. *)
Theorem clean_keeps_underscore (stem : string -> string) :
  stem "_" = "_" ->
  all_chars ascii_punctuation "_" = true /\
  clean stem "_" = "_" /\
  all_chars normal_char (clean stem "_") = false.
Proof.
  intros H. assert (Hc : clean stem "_" = "_").
  { rewrite (clean_tokens stem "_" ["_"]) by reflexivity.
    cbn [fold_left]. rewrite H. reflexivity. }
  rewrite Hc. repeat split.
Qed.

Lemma clean_keeps_underscore_witness :
  all_chars ascii_punctuation "_" = true /\
  clean plural_stem "_" = "_" /\
  all_chars normal_char (clean plural_stem "_") = false.
Proof.
  apply (clean_keeps_underscore plural_stem). reflexivity.
Defined.

(** C6, as stated, fails: on [a   b], letters and spaces only, a second
    pass of the normaliser removes a space the first pass left, for every
    stemmer that returns the empty token, [a] and [b] unchanged. *)
Lemma clean_not_idempotent :
  all_chars alnum_space "a   b" = true /\
  forall stem : string -> string,
    stem "" = "" -> stem "a" = "a" -> stem "b" = "b" ->
    clean stem "a   b" = "a  b" /\
    clean stem (clean stem "a   b") = "a b" /\
    clean stem (clean stem "a   b") <> clean stem "a   b".
Proof.
  split; [reflexivity|]. intros stem H0 Ha Hb.
  assert (H1 : clean stem "a   b" = "a  b").
  { rewrite (clean_tokens stem "a   b" ["a"; ""; "b"]) by reflexivity.
    cbn [fold_left]. rewrite H0, Ha, Hb. reflexivity. }
  assert (H2 : clean stem "a  b" = "a b").
  { rewrite (clean_tokens stem "a  b" ["a"; "b"]) by reflexivity.
    cbn [fold_left]. rewrite Ha, Hb. reflexivity. }
  rewrite H1, H2. repeat split. discriminate.
Qed.

(** C6, amended. On a text of ASCII letters, digits and spaces in which no
    three spaces are consecutive, the normaliser is idempotent when the
    stemmer returns the empty token unchanged and sends every other token of
    the text to a word (lower-case letters and digits, not empty) that it
    leaves unchanged. *)
Theorem clean_idempotent_well_spaced (stem : string -> string) (x : string) :
  all_chars alnum_space x = true ->
  has_space_run 3 x = false ->
  stem "" = "" ->
  forallb (stable_token stem) (tokens x) = true ->
  clean stem (clean stem x) = clean stem x.
Proof.
  intros Hx H3 H0 Hst.
  assert (Hsub : Py.sub punctuation Py.SPACE x = x).
  { apply sub_punctuation_id. apply (all_chars_impl alnum_space); [|exact Hx].
    intros c Hc. now rewrite (alnum_space_facts c Hc). }
  assert (Htok : tokens x = Py.split_sp (Py.lower (Py.replace_2sp x))).
  { unfold tokens. now rewrite Hsub. }
  assert (Hy : has_space_run 2 (Py.lower (Py.replace_2sp x)) = false).
  { rewrite has_space_run_lower. now apply replace_2sp_no_double. }
  destruct (split_sp_shape _ Hy) as [W [E [Hsplit [HW HE]]]].
  rewrite <- Htok in Hsplit.
  assert (Hstable : forall w, In w W ->
                      is_word (stem w) = true /\ stem (stem w) = stem w).
  { intros w Hin. assert (Hw : w <> "") by exact (proj1 (Forall_forall _ W) HW w Hin).
    assert (Hs : stable_token stem w = true).
    { apply (proj1 (forallb_forall _ (tokens x)) Hst). rewrite Hsplit.
      apply in_or_app. right. apply in_or_app. now left. }
    unfold stable_token in Hs. apply String.eqb_neq in Hw. rewrite Hw in Hs.
    cbn [orb] in Hs. apply andb_true_iff in Hs. destruct Hs as [Hs1 Hs2].
    apply String.eqb_eq in Hs2. auto. }
  assert (HS : words_only (map stem W)).
  { apply Forall_forall. intros s Hs. apply in_map_iff in Hs.
    destruct Hs as [w [<- Hin]]. exact (proj1 (Hstable w Hin)). }
  assert (Hfix : Forall (fun s => stem s = s) (map stem W)).
  { apply Forall_forall. intros s Hs. apply in_map_iff in Hs.
    destruct Hs as [w [<- Hin]]. exact (proj2 (Hstable w Hin)). }
  assert (Hclean : clean stem x = String.concat " " (map stem W)).
  { rewrite (clean_tokens stem x _ Hsplit).
    apply (strip_glue stem _ W E H0 (lead_empties _)); [|exact HS].
    destruct HE as [->| ->]; auto. }
  rewrite Hclean. now apply clean_join_fixed.
Qed.

Lemma clean_idempotent_well_spaced_witness :
  clean plural_stem (clean plural_stem " Permission is  hereby granted to 2 persons ")
  = clean plural_stem " Permission is  hereby granted to 2 persons ".
Proof.
  apply (clean_idempotent_well_spaced plural_stem); reflexivity.
Defined.

(** ** Reading a template file *)

Lemma readlines_nil (s : string) : Py.readlines s = [] -> s = "".
Proof.
  destruct s as [|c s]; simpl; [reflexivity|].
  destruct (Ascii.eqb c Py.LF); [discriminate|].
  destruct (Py.readlines s); discriminate.
Qed.

(** The lines of a text, joined again, are the text. *)
Lemma readlines_join (s : string) : fold_right append "" (Py.readlines s) = s.
Proof.
  induction s as [|c s IH]; simpl; [reflexivity|].
  destruct (Ascii.eqb c Py.LF).
  - simpl. now rewrite IH.
  - destruct (Py.readlines s) as [|l ls] eqn:Hl.
    + apply readlines_nil in Hl. subst s. reflexivity.
    + simpl in *. now rewrite IH.
Qed.

Lemma fold_left_append (ls : list string) (l : string) :
  fold_left (fun s1 s2 => s1 ++ s2) ls l = l ++ fold_right append "" ls.
Proof.
  revert l. induction ls as [|x ls IH]; intros l; simpl.
  - now rewrite append_nil_r.
  - rewrite IH. apply append_assoc.
Qed.

(** [reduce] over the lines of a text gives the text back, and has nothing
    to start from when the text is empty. *)
Lemma reduce1_readlines (content : string) :
  reduce1 (fun s1 s2 => s1 ++ s2) (Py.readlines content) =
  if String.eqb content "" then Raise TypeError else Ok content.
Proof.
  destruct (Py.readlines content) as [|l ls] eqn:Hl.
  - apply readlines_nil in Hl. subst content. reflexivity.
  - simpl. rewrite fold_left_append.
    assert (Hj := readlines_join content). rewrite Hl in Hj. simpl in Hj. rewrite Hj.
    destruct content; [discriminate|reflexivity].
Qed.

Lemma universal_newlines_empty (s : string) :
  String.eqb (Py.universal_newlines s) "" = String.eqb s "".
Proof.
  destruct s as [|c s]; [reflexivity|]. cbn [Py.universal_newlines].
  destruct (Ascii.eqb c Py.CR); [|reflexivity].
  destruct s as [|c' s]; [reflexivity|]. destruct (Ascii.eqb c' Py.LF); reflexivity.
Qed.


Lemma prepare_license_file_Text (stem : string -> string) (fs : filesystem)
    (filename content : string) :
  open fs filename = Text content ->
  prepare_license_file stem fs filename =
  if String.eqb content "" then Raise TypeError
  else Ok (clean stem (Py.universal_newlines content)).
Proof.
  intros H. unfold prepare_license_file. rewrite H, reduce1_readlines.
  rewrite universal_newlines_empty.
  destruct (String.eqb content ""); reflexivity.
Qed.

(** A template stored with the line end CR LF is normalised as it is read,
    with the line end LF; the same text as a candidate is normalised as it
    is, and the two differ in a space. *)
Lemma crlf_template_read_translated (stem : string -> string) :
  stem "" = "" -> stem "foo" = "foo" -> stem "bar" = "bar" ->
  prepare_license_file stem crlf_fs (TEMPLATES_DIR ++ "crlf.txt") = Ok "foo bar" /\
  clean stem CRLF_TEXT = "foo  bar".
Proof.
  intros H0 Hfoo Hbar. split.
  - rewrite (prepare_license_file_Text stem crlf_fs _ CRLF_TEXT) by reflexivity.
    change (String.eqb CRLF_TEXT "") with false. cbv iota.
    rewrite (clean_tokens stem _ ["foo"; "bar"]) by reflexivity.
    cbn [fold_left]. now rewrite Hfoo, Hbar.
  - rewrite (clean_tokens stem _ ["foo"; ""; "bar"]) by reflexivity.
    cbn [fold_left]. now rewrite H0, Hfoo, Hbar.
Qed.

(** ** The loader *)

Section Loader.

Variable stem : string -> string.

Lemma load_each_Ok (fs : filesystem) (fns names0 lics0 names lics : list string) :
  load_each stem fs fns names0 lics0 = Ok (names, lics) <->
  exists texts,
    Forall2 (fun fn t => prepare_license_file stem fs (TEMPLATES_DIR ++ fn) = Ok t) fns texts /\
    names = (names0 ++ map license_name fns)%list /\
    lics = (lics0 ++ texts)%list.
Proof.
  revert names0 lics0. induction fns as [|fn rest IH]; intros names0 lics0;
    cbn [load_each map].
  - split.
    + intros H. inversion H; subst. exists []. rewrite !app_nil_r. auto.
    + intros [texts [HF [-> ->]]]. inversion HF; subst. rewrite !app_nil_r. reflexivity.
  - destruct (prepare_license_file stem fs (TEMPLATES_DIR ++ fn)) as [t|e] eqn:Hp;
      cbn [bind].
    + rewrite IH. split.
      * intros [texts [HF [-> ->]]]. exists (t :: texts).
        rewrite <- !app_assoc. simpl. auto.
      * intros [texts [HF [-> ->]]]. inversion HF as [|? t' ? texts' Ht HF']; subst.
        rewrite Hp in Ht. inversion Ht; subst t'.
        exists texts'. rewrite <- !app_assoc. simpl. auto.
    + split; [discriminate|].
      intros [texts [HF _]]. inversion HF as [|? t' ? texts' Ht HF']; subst.
      rewrite Hp in Ht. discriminate.
Qed.

Lemma load_license_templates_Ok (fs : filesystem) (names lics : list string) :
  load_license_templates stem fs = Ok (names, lics) <->
  exists entries,
    listdir fs TEMPLATES_DIR = Some entries /\
    names = map license_name (license_filenames entries) /\
    Forall2 (fun fn t => prepare_license_file stem fs (TEMPLATES_DIR ++ fn) = Ok t)
            (license_filenames entries) lics.
Proof.
  unfold load_license_templates.
  destruct (listdir fs TEMPLATES_DIR) as [entries|].
  - fold (license_filenames entries). rewrite load_each_Ok. split.
    + intros [texts [HF [-> ->]]]. exists entries. auto.
    + intros [entries' [He [-> HF]]]. inversion He; subst entries'.
      exists lics. auto.
  - split; [discriminate|]. intros [entries [He _]]. discriminate.
Qed.

Lemma load_license_templates_length (fs : filesystem) (names lics : list string) :
  load_license_templates stem fs = Ok (names, lics) ->
  List.length names = List.length lics.
Proof.
  rewrite load_license_templates_Ok. intros [entries [_ [-> HF]]].
  rewrite length_map. exact (Forall2_length HF).
Qed.

(** The loader reads the listing and the listed template files, nothing
    else. *)
Lemma load_each_ext (fs1 fs2 : filesystem) (fns names0 lics0 : list string) :
  (forall fn, In fn fns -> open fs1 (TEMPLATES_DIR ++ fn) = open fs2 (TEMPLATES_DIR ++ fn)) ->
  load_each stem fs1 fns names0 lics0 = load_each stem fs2 fns names0 lics0.
Proof.
  revert names0 lics0. induction fns as [|fn rest IH]; intros names0 lics0 Hopen;
    cbn [load_each].
  - reflexivity.
  - unfold prepare_license_file. rewrite (Hopen fn (or_introl eq_refl)).
    destruct (open fs2 (TEMPLATES_DIR ++ fn)); cbn [bind]; try reflexivity.
    destruct (reduce1 _ _); cbn [bind]; [|reflexivity].
    apply IH. intros fn' Hin. apply Hopen. right. exact Hin.
Qed.

End Loader.

(** [reduce] has nothing to start from on an empty template file. *)
Lemma empty_file_raises (stem : string -> string) :
  prepare_license_file stem empty_file_fs (TEMPLATES_DIR ++ "unlicense.txt")
    = Raise TypeError /\
  load_license_templates stem empty_file_fs = Raise TypeError.
Proof.
  split.
  - now rewrite (prepare_license_file_Text stem empty_file_fs _ "") by reflexivity.
  - unfold load_license_templates.
    change (listdir empty_file_fs TEMPLATES_DIR) with (Some ["mit.txt"; "unlicense.txt"]).
    cbv beta iota zeta.
    change (filter (Py.endswith ".txt") ["mit.txt"; "unlicense.txt"])
      with ["mit.txt"; "unlicense.txt"].
    cbn [load_each].
    rewrite (prepare_license_file_Text stem empty_file_fs _ MIT_TEXT) by reflexivity.
    change (String.eqb MIT_TEXT "") with false. cbv iota. cbn [bind].
    rewrite (prepare_license_file_Text stem empty_file_fs _ "") by reflexivity.
    reflexivity.
Qed.

(** C7 at a readable directory with an empty template file: the directory
    lists two [.txt] entries whose files can be read, and the loader raises
    [TypeError] where the claim has it return two names and two texts. *)
Theorem load_license_templates_empty_file (stem : string -> string) :
  listdir empty_file_fs TEMPLATES_DIR = Some ["mit.txt"; "unlicense.txt"] /\
  open empty_file_fs (TEMPLATES_DIR ++ "mit.txt") = Text MIT_TEXT /\
  open empty_file_fs (TEMPLATES_DIR ++ "unlicense.txt") = Text "" /\
  load_license_templates stem empty_file_fs = Raise TypeError.
Proof.
  split; [reflexivity|]. split; [reflexivity|]. split; [reflexivity|].
  exact (proj2 (empty_file_raises stem)).
Qed.

(** What the loader returns when every template file holds some text: one
    name and one normalised text per [.txt] entry, in listing order.  The
    text that is normalised is the text of the file with its newlines
    translated.  File names and texts are ASCII. *)
Lemma load_license_templates_texts (stem : string -> string) (fs : filesystem)
    (entries texts : list string) :
  listdir fs TEMPLATES_DIR = Some entries ->
  Forall2 (fun fn content =>
             all_chars is_ascii fn = true /\
             open fs (TEMPLATES_DIR ++ fn) = Text content /\
             content <> "" /\ all_chars is_ascii content = true)
          (license_filenames entries) texts ->
  load_license_templates stem fs =
  Ok (map license_name (license_filenames entries),
      map (fun content => clean stem (Py.universal_newlines content)) texts).
Proof.
  intros Hlist HF. apply load_license_templates_Ok. exists entries.
  split; [exact Hlist|]. split; [reflexivity|].
  induction HF as [|fn content fns cs [_ [Hopen [Hne _]]] HF IH]; cbn [map]; constructor.
  - rewrite (prepare_license_file_Text stem fs _ content Hopen).
    apply String.eqb_neq in Hne. now rewrite Hne.
  - exact IH.
Qed.

Lemma load_license_templates_texts_witness :
  load_license_templates plural_stem tie_fs =
  Ok (map license_name ["apache-2.0.txt"; "mit.txt"; "mit-0.txt"],
      map (fun content => clean plural_stem (Py.universal_newlines content))
          ["Licensed under the Apache License"; "Permission is hereby granted";
           "permission granted hereby, is!"]).
Proof.
  apply (load_license_templates_texts plural_stem tie_fs
           ["apache-2.0.txt"; "notes.md"; "mit.txt"; "mit-0.txt"]).
  - reflexivity.
  - repeat constructor; discriminate.
Defined.

(** ** Order and division in binary64 *)



Lemma SFcompare_antisym (x y : float) :
  SFcompare y x = option_map CompOpp (SFcompare x y).
Proof.
  destruct x as [s|s| |s m e], y as [s'|s'| |s' m' e']; simpl;
    try reflexivity; try (destruct s; reflexivity); try (destruct s'; reflexivity);
    try (destruct s, s'; reflexivity).
  assert (Hm : Pos.compare_cont Eq m' m = CompOpp (Pos.compare_cont Eq m m'))
    by apply Pos.compare_antisym.
  rewrite (Z.compare_antisym e e').
  destruct s, s'; simpl; try reflexivity;
    destruct (Z.compare e e'); simpl; try reflexivity; rewrite Hm;
    destruct (Pos.compare_cont Eq m m'); reflexivity.
Qed.

(** [x <= y] leaves no room for [x > y]. *)
Lemma SFleb_not_fgt (x y : float) : SFleb x y = true -> fgt x y = false.
Proof.
  unfold SFleb, fgt, SFltb. rewrite (SFcompare_antisym x y).
  destruct (SFcompare x y) as [[ | | ]|]; simpl; intros H; try reflexivity; discriminate.
Qed.

(** [x <= y] and [x <> y] give [y > x]. *)
Lemma SFleb_neq_fgt (x y : float) :
  SFleb x y = true -> SFeqb x y = false -> fgt y x = true.
Proof.
  unfold SFleb, SFeqb, fgt, SFltb.
  destruct (SFcompare x y) as [[ | | ]|]; intros H1 H2; try reflexivity; discriminate.
Qed.

Lemma fgt_nan (mx : float) : fgt S754_nan mx = false.
Proof. destruct mx; reflexivity. Qed.

Lemma fdiv_zero_by_zero_product (n a y : float) :
  is_zero n = true -> is_zero a = true -> fdiv n (fmul a y) = S754_nan.
Proof.
  destruct n; try discriminate. destruct a; try discriminate.
  intros _ _. destruct y; reflexivity.
Qed.

Lemma math_sqrt_zero (x : float) :
  is_zero x = true -> exists z, math_sqrt x = Ok z /\ is_zero z = true.
Proof.
  destruct x as [s| | |]; try discriminate. intros _.
  exists (S754_zero s). destruct s; split; reflexivity.
Qed.




(** ** The first score that reaches a value *)





(** ** The search loop *)

Section SearchLoop.

Variable V : vectorizer.
Variable tfidf : list (row V).
Variable vectorized_document : row V.

(** A loop that meets no score above the running maximum keeps its index. *)
Lemma most_similar_keeps (scores : list float) (n k index : nat) (mx : float) :
  scored V tfidf vectorized_document scores -> k + n <= List.length scores ->
  (forall j s, k <= j -> nth_error scores j = Some s -> fgt s mx = false) ->
  most_similar V tfidf vectorized_document (seq k n) index mx = Ok index.
Proof.
  intros Hsc. revert k. induction n as [|n IH]; intros k Hlen Hle; simpl.
  - reflexivity.
  - destruct (nth_error scores k) as [s|] eqn:Hk.
    + destruct (Hsc k s Hk) as [r [Hr Hcos]].
      unfold getitem. rewrite Hr. simpl. rewrite Hcos. simpl.
      rewrite (Hle k s (le_n k) Hk).
      apply IH; [lia|]. intros j s' Hj. apply Hle. lia.
    + apply nth_error_None in Hk. lia.
Qed.

(** The loop returns the index [i] whose score is above the initial
    maximum and above every earlier score that is a number, and which no
    later score exceeds. *)
Lemma most_similar_first_max (scores : list float) (i : nat) (si : float) :
  scored V tfidf vectorized_document scores -> nth_error scores i = Some si ->
  forall n k index mx,
    k <= i < k + n -> k + n <= List.length scores ->
    fgt si mx = true ->
    (forall j s, k <= j < i -> nth_error scores j = Some s ->
                 s = S754_nan \/ fgt si s = true) ->
    (forall j s, i < j -> nth_error scores j = Some s -> fgt s si = false) ->
    most_similar V tfidf vectorized_document (seq k n) index mx = Ok i.
Proof.
  intros Hsc Hi. induction n as [|n IH]; intros k index mx Hk Hlen Hmx Hbefore Hafter.
  - lia.
  - simpl. destruct (nth_error scores k) as [s|] eqn:Hs.
    2:{ apply nth_error_None in Hs. lia. }
    destruct (Hsc k s Hs) as [r [Hr Hcos]].
    unfold getitem. rewrite Hr. simpl. rewrite Hcos. simpl.
    destruct (Nat.eq_dec k i) as [->|Hne].
    + rewrite Hs in Hi. inversion Hi; subst s. rewrite Hmx.
      apply most_similar_keeps with (scores := scores); [assumption|lia|].
      intros j s' Hj. apply Hafter. lia.
    + destruct (fgt s mx) eqn:Hgt.
      * apply IH; [lia|lia| |intros j s' Hj; apply Hbefore; lia|assumption].
        destruct (Hbefore k s) as [->|H]; [lia|assumption| |exact H].
        rewrite fgt_nan in Hgt. discriminate.
      * apply IH; [lia|lia|assumption|intros j s' Hj; apply Hbefore; lia|assumption].
Qed.

End SearchLoop.

(** ** The classifier *)

Section Classifier.

Variable stem : string -> string.
Variable V : vectorizer.

(** Once the templates are loaded and the vectoriser is fitted, what is left
    of [detect_license] is the search and the final lookup. *)
Lemma detect_license_fitted (fs : filesystem) (document : string) (cleaned : bool)
    (names licenses : list string) (m : model V) :
  load_license_templates stem fs = Ok (names, licenses) ->
  fit V (licenses ++ [cleaned_doc stem document cleaned])%list = Some m ->
  detect_license stem V fs document cleaned =
  (index <- most_similar V
              (map (transform V m) (licenses ++ [cleaned_doc stem document cleaned])%list)
              (transform V m (cleaned_doc stem document cleaned))
              (seq 0 (List.length licenses)) 0 neg_one ;;
   getitem names index).
Proof.
  intros Hload Hfit. unfold detect_license, fit_transform.
  rewrite Hload. cbn [bind]. fold (cleaned_doc stem document cleaned).
  rewrite Hfit. cbn [bind]. rewrite map_app. simpl map at 2.
  rewrite getlast_snoc. reflexivity.
Qed.

Lemma similarities_scored (m : model V) (candidate : string)
    (licenses : list string) (scores : list float) :
  similarities V m candidate licenses scores ->
  scored V (map (transform V m) (licenses ++ [candidate])%list)
         (transform V m candidate) scores.
Proof.
  intros HF j s Hs.
  assert (Hj : j < List.length licenses).
  { rewrite (Forall2_length HF). apply nth_error_Some. congruence. }
  destruct (nth_error licenses j) as [lic|] eqn:Hl.
  2:{ apply nth_error_None in Hl. lia. }
  exists (transform V m lic). split.
  - rewrite map_app, nth_error_app1 by (rewrite length_map; exact Hj).
    now rewrite nth_error_map, Hl.
  - destruct (Forall2_nth_error _ _ _ j lic HF Hl) as [s' [Hs' Hcos]].
    rewrite Hs in Hs'. inversion Hs'; subst s'. exact Hcos.
Qed.

(** C10. A label [detect_license] returns is an entry of the names the
    loader produced for that call, at an index below the size of the
    corpus. *)
Theorem detect_license_label_in_corpus (fs : filesystem) (document : string)
    (cleaned : bool) (label : string) :
  detect_license stem V fs document cleaned = Ok label ->
  exists names licenses i,
    load_license_templates stem fs = Ok (names, licenses) /\
    i < List.length licenses /\
    nth_error names i = Some label /\
    In label names.
Proof.
  unfold detect_license. intros H.
  destruct (load_license_templates stem fs) as [[names licenses]|e] eqn:Hload;
    cbn [bind] in H; [|discriminate].
  destruct (fit_transform V _) as [tfidf|e]; cbn [bind] in H; [|discriminate].
  destruct (getlast tfidf) as [vdoc|e]; cbn [bind] in H; [|discriminate].
  destruct (most_similar V tfidf vdoc _ 0 neg_one) as [i|e] eqn:Hi;
    cbn [bind] in H; [|discriminate].
  apply getitem_Ok in H.
  exists names, licenses, i. repeat split; try assumption.
  - rewrite <- (load_license_templates_length stem fs names licenses Hload).
    apply nth_error_Some. congruence.
  - exact (nth_error_In names i H).
Qed.

(** C4. When template [i] attains the maximal similarity to the candidate
    (every score that is a number is below or equal to it) and no earlier
    template attains it, the classifier returns the name of template [i]:
    among the templates that tie at the maximum the one of lowest index
    wins.  The maximum is taken to lie above the initial running maximum -1,
    as a cosine of rows with non-negative weights does. *)
Theorem detect_license_tie_lowest_index (fs : filesystem) (document : string)
    (cleaned : bool) (names licenses : list string) (m : model V)
    (scores : list float) (i : nat) (name : string) (si : float) :
  load_license_templates stem fs = Ok (names, licenses) ->
  fit V (licenses ++ [cleaned_doc stem document cleaned])%list = Some m ->
  similarities V m (cleaned_doc stem document cleaned) licenses scores ->
  nth_error names i = Some name ->
  nth_error scores i = Some si ->
  fgt si neg_one = true ->
  (forall j sj, nth_error scores j = Some sj -> sj = S754_nan \/ SFleb sj si = true) ->
  (forall j sj, j < i -> nth_error scores j = Some sj -> SFeqb sj si = false) ->
  detect_license stem V fs document cleaned = Ok name.
Proof.
  intros Hload Hfit Hsim Hname Hsi Hgt Hmax Hfirst.
  rewrite (detect_license_fitted fs document cleaned names licenses m Hload Hfit).
  assert (Hlen : List.length licenses = List.length scores) by exact (Forall2_length Hsim).
  assert (Hi : i < List.length scores) by (apply nth_error_Some; congruence).
  rewrite (most_similar_first_max V _ _ scores i si
             (similarities_scored m _ licenses scores Hsim) Hsi).
  - cbn [bind]. apply getitem_Ok. exact Hname.
  - lia.
  - simpl. lia.
  - exact Hgt.
  - intros j s [_ Hj] Hs. destruct (Hmax j s Hs) as [Hnan|Hle]; [now left|right].
    apply SFleb_neq_fgt; eauto.
  - intros j s _ Hs. destruct (Hmax j s Hs) as [->|Hle]; [apply fgt_nan|].
    now apply SFleb_not_fgt.
Qed.



(** C9. Two calls of [detect_license] on the same candidate, in states of
    the file system that hold the same corpus, have the same outcome: the
    same label, or the same exception. *)
Theorem detect_license_deterministic (fs1 fs2 : filesystem) (document : string)
    (cleaned : bool) :
  same_corpus fs1 fs2 ->
  detect_license stem V fs1 document cleaned =
  detect_license stem V fs2 document cleaned.
Proof.
  intros [Hlist Hopen].
  assert (Hload : load_license_templates stem fs1 = load_license_templates stem fs2).
  { unfold load_license_templates. rewrite <- Hlist.
    destruct (listdir fs1 TEMPLATES_DIR) as [entries|]; [|reflexivity].
    apply load_each_ext. intros fn Hin. exact (Hopen entries fn eq_refl Hin). }
  unfold detect_license. rewrite Hload. reflexivity.
Qed.

(** Against a row whose products vanish, the similarity is 0/0. *)
Lemma cosine_similarity_null_row (v w : row V) :
  is_zero (dot V v v) = true ->
  is_zero (dot V v w) = true ->
  SFltb (dot V w w) pos_zero = false ->
  cosine_similarity V v w = Ok S754_nan.
Proof.
  intros Hvv Hvw Hww. unfold cosine_similarity.
  destruct (math_sqrt_zero _ Hvv) as [z [Hz Hzz]]. rewrite Hz. cbn [bind].
  unfold math_sqrt at 1. rewrite Hww. cbn [bind].
  now rewrite fdiv_zero_by_zero_product.
Qed.

(** C1, amended. For a candidate whose normalised text is empty, when the
    corpus loads with at least one template and the vectoriser accepts the
    documents, every similarity is NaN, no comparison succeeds, and the
    classifier returns the label of the first template.  The row of the
    empty text is taken to be null (its products are zero) and the product
    of a template row with itself not to be negative. *)
Theorem detect_license_empty_candidate (fs : filesystem) (document : string)
    (cleaned : bool) (names licenses : list string) (m : model V) (first : string) :
  load_license_templates stem fs = Ok (names, licenses) ->
  nth_error names 0 = Some first ->
  cleaned_doc stem document cleaned = "" ->
  fit V (licenses ++ [""])%list = Some m ->
  is_zero (dot V (transform V m "") (transform V m "")) = true ->
  (forall license, In license licenses ->
     is_zero (dot V (transform V m "") (transform V m license)) = true /\
     SFltb (dot V (transform V m license) (transform V m license)) pos_zero = false) ->
  detect_license stem V fs document cleaned = Ok first.
Proof.
  intros Hload Hfirst Hempty Hfit Hnull Hrows.
  rewrite <- Hempty in Hfit.
  rewrite (detect_license_fitted fs document cleaned names licenses m Hload Hfit).
  rewrite Hempty.
  assert (Hsim : similarities V m "" licenses (map (fun _ => S754_nan) licenses)).
  { unfold similarities. clear Hload Hfit. induction licenses as [|l ls IH]; simpl.
    - constructor.
    - constructor.
      + destruct (Hrows l (or_introl eq_refl)) as [H1 H2].
        now apply cosine_similarity_null_row.
      + apply IH. intros l' Hin. apply Hrows. now right. }
  rewrite (most_similar_keeps V _ _ _ _ 0 0 neg_one
             (similarities_scored m "" licenses _ Hsim)).
  - cbn [bind]. apply getitem_Ok. exact Hfirst.
  - rewrite length_map. simpl. lia.
  - intros j s _ Hs. apply nth_error_In, in_map_iff in Hs.
    destruct Hs as [l [<- _]]. apply fgt_nan.
Qed.

(** With a template that holds no word and an empty candidate, the call
    ends with the [ValueError] of a vectoriser that finds no token. *)
Lemma blank_corpus_raises :
  stem "" = "" -> fit V [""; ""] = None ->
  load_license_templates stem blank_fs = Ok (["BLANK"], [""]) /\
  clean stem "" = "" /\
  detect_license stem V blank_fs "" false = Raise ValueError.
Proof.
  intros Hstem Hfit.
  assert (Hc : clean stem "" = "") by exact (clean_empty stem Hstem).
  assert (Hb : clean stem (String Py.LF "") = "").
  { rewrite (clean_tokens stem _ [""; ""]) by reflexivity.
    cbn [fold_left]. now rewrite Hstem. }
  assert (Hload : load_license_templates stem blank_fs = Ok (["BLANK"], [""])).
  { apply load_license_templates_Ok. exists ["blank.txt"].
    split; [reflexivity|]. split; [reflexivity|].
    change (license_filenames ["blank.txt"]) with ["blank.txt"].
    repeat constructor.
    rewrite (prepare_license_file_Text stem blank_fs _ (String Py.LF ""));
      [|reflexivity].
    change (String.eqb (String Py.LF "") "") with false. cbv iota.
    change (Py.universal_newlines (String Py.LF "")) with (String Py.LF "").
    now rewrite Hb. }
  repeat split; [exact Hload|exact Hc|].
  unfold detect_license, fit_transform. rewrite Hload. cbn [bind].
  rewrite Hc. cbn [app]. rewrite Hfit. reflexivity.
Qed.

(** What a call does without templates. *)
Lemma without_templates_outcome (fs : filesystem) (document : string) (cleaned : bool) :
  no_templates fs = true ->
  detect_license stem V fs document cleaned =
  Raise match listdir fs TEMPLATES_DIR with
        | None => OSError
        | Some _ =>
            match fit V [cleaned_doc stem document cleaned] with
            | Some _ => IndexError
            | None => ValueError
            end
        end.
Proof.
  unfold no_templates, detect_license, load_license_templates, fit_transform.
  destruct (listdir fs TEMPLATES_DIR) as [entries|]; [|reflexivity].
  fold (license_filenames entries).
  destruct (license_filenames entries); [|discriminate]. intros _.
  cbn [load_each bind app]. fold (cleaned_doc stem document cleaned).
  destruct (fit V [cleaned_doc stem document cleaned]); reflexivity.
Qed.

(** C8, amended. Without templates a call fails and returns no label: with
    the [OSError] of the listing when the directory cannot be listed; when
    it lists no [.txt] entry, with the [ValueError] of the vectoriser if the
    candidate alone is rejected, and else with the [IndexError] of the final
    lookup in the empty list of names. *)
Theorem detect_license_without_templates (fs : filesystem) (document : string)
    (cleaned : bool) :
  no_templates fs = true ->
  (listdir fs TEMPLATES_DIR = None ->
   detect_license stem V fs document cleaned = Raise OSError) /\
  (listdir fs TEMPLATES_DIR <> None ->
   fit V [cleaned_doc stem document cleaned] = None ->
   detect_license stem V fs document cleaned = Raise ValueError) /\
  (listdir fs TEMPLATES_DIR <> None ->
   fit V [cleaned_doc stem document cleaned] <> None ->
   detect_license stem V fs document cleaned = Raise IndexError).
Proof.
  intros H. rewrite (without_templates_outcome fs document cleaned H).
  destruct (listdir fs TEMPLATES_DIR) as [entries|].
  - repeat split; try discriminate; intros _ Hfit;
      destruct (fit V [cleaned_doc stem document cleaned]); congruence.
  - split; [reflexivity|]. split; intros Hl; now destruct Hl.
Qed.

End Classifier.

(** ** Concrete runs and counterexamples *)

Lemma detect_license_label_in_corpus_witness :
  exists names licenses i,
    load_license_templates plural_stem tie_fs = Ok (names, licenses) /\
    i < List.length licenses /\
    nth_error names i = Some "MIT" /\
    In "MIT" names.
Proof.
  apply (detect_license_label_in_corpus plural_stem count_vectorizer tie_fs
           "Permission is hereby granted, free of charge" false "MIT").
  vm_compute. reflexivity.
Defined.

Lemma detect_license_tie_lowest_index_witness :
  detect_license plural_stem count_vectorizer tie_fs
    "Permission is hereby granted." false = Ok "MIT".
Proof.
  apply (detect_license_tie_lowest_index plural_stem count_vectorizer tie_fs
           "Permission is hereby granted." false
           ["APACHE 2.0"; "MIT"; "MIT 0"]
           ["licensed under the apache license"; "permission is hereby granted";
            "permission granted hereby is"]
           ["licensed"; "under"; "the"; "apache"; "license"; "permission"; "is";
            "hereby"; "granted"]
           [pos_zero; one; one] 1 "MIT" one).
  - vm_compute. reflexivity.
  - vm_compute. reflexivity.
  - repeat constructor.
  - reflexivity.
  - reflexivity.
  - vm_compute. reflexivity.
  - intros [|[|[|j]]] sj H; simpl in H; inversion H; subst; try (right; reflexivity).
    destruct j; discriminate.
  - intros [|[|j]] sj Hj H; simpl in H; inversion H; subst; try reflexivity; lia.
Defined.

Lemma detect_license_deterministic_witness :
  detect_license plural_stem count_vectorizer tie_fs "Permission granted" false =
  detect_license plural_stem count_vectorizer tie_fs_later "Permission granted" false.
Proof.
  apply (detect_license_deterministic plural_stem count_vectorizer tie_fs tie_fs_later).
  split; [reflexivity|].
  intros entries fn H Hin. inversion H; subst entries. clear H.
  vm_compute in Hin. destruct Hin as [<-|[<-|[<-|[]]]]; reflexivity.
Defined.



Lemma detect_license_empty_candidate_witness :
  detect_license plural_stem count_vectorizer tie_fs "?!" false = Ok "APACHE 2.0".
Proof.
  apply (detect_license_empty_candidate plural_stem count_vectorizer tie_fs "?!" false
           ["APACHE 2.0"; "MIT"; "MIT 0"]
           ["licensed under the apache license"; "permission is hereby granted";
            "permission granted hereby is"]
           ["licensed"; "under"; "the"; "apache"; "license"; "permission"; "granted";
            "hereby"; "is"]).
  - vm_compute. reflexivity.
  - reflexivity.
  - vm_compute. reflexivity.
  - vm_compute. reflexivity.
  - vm_compute. reflexivity.
  - intros license [<-|[<-|[<-|[]]]]; vm_compute; split; reflexivity.
Defined.

(** C1, as stated, fails: with a template that holds no word, the templates
    and an empty candidate give the vectoriser no token, and the call ends
    with the vectoriser's [ValueError], for every stemmer that returns the
    empty token unchanged; and with an empty template file the call ends
    with the loader's [TypeError]. *)
Lemma empty_candidate_may_raise :
  listdir blank_fs TEMPLATES_DIR = Some ["blank.txt"] /\
  (forall (stem : string -> string) (V : vectorizer),
     stem "" = "" -> fit V [""; ""] = None ->
     load_license_templates stem blank_fs = Ok (["BLANK"], [""]) /\
     clean stem "" = "" /\
     detect_license stem V blank_fs "" false = Raise ValueError) /\
  (forall (stem : string -> string) (V : vectorizer),
     detect_license stem V empty_file_fs "" false = Raise TypeError).
Proof.
  split; [reflexivity|]. split.
  - intros stem V. apply blank_corpus_raises.
  - intros stem V. unfold detect_license.
    now rewrite (proj2 (empty_file_raises stem)).
Qed.

Lemma detect_license_without_templates_witness :
  detect_license plural_stem count_vectorizer empty_fs "MIT License" false
    = Raise IndexError /\
  detect_license plural_stem count_vectorizer missing_fs "MIT License" false
    = Raise OSError.
Proof.
  split.
  - apply (detect_license_without_templates plural_stem count_vectorizer empty_fs
             "MIT License" false eq_refl); discriminate.
  - apply (detect_license_without_templates plural_stem count_vectorizer missing_fs
             "MIT License" false eq_refl). reflexivity.
Defined.

(** C8, as stated, fails: in a directory that lists no template the call
    ends with an exception that is of none of the kinds the specification
    names, whatever the candidate and the libraries. *)
Lemma empty_directory_no_configuration_error :
  listdir empty_fs TEMPLATES_DIR = Some ["README"] /\
  license_filenames ["README"] = [] /\
  forall (stem : string -> string) (V : vectorizer) (document : string) (cleaned : bool),
    exists e, detect_license stem V empty_fs document cleaned = Raise e /\
              (e = IndexError \/ e = ValueError) /\
              kind_of e = None.
Proof.
  repeat split. intros stem V document cleaned.
  rewrite (without_templates_outcome stem V empty_fs document cleaned eq_refl).
  cbn [listdir empty_fs template_dir]. change (String.eqb TEMPLATES_DIR TEMPLATES_DIR) with true.
  cbv iota.
  destruct (fit V [cleaned_doc stem document cleaned]); eexists; repeat split; auto.
Qed.

(** * The command line

    ** The two regular expressions *)

Lemma all_chars_cons (p : ascii -> bool) (c : ascii) (s : string) :
  all_chars p (String c s) = true -> p c = true /\ all_chars p s = true.
Proof. cbn [all_chars]. apply andb_true_iff. Qed.

Lemma not_slash_eqb (c : ascii) : not_slash c = true -> Ascii.eqb c "/" = false.
Proof. unfold not_slash. apply negb_true_iff. Qed.

Lemma findall_outside (w rest : string) :
  all_chars not_slash w = true ->
  findall_from Outside (w ++ rest) = findall_from Outside rest.
Proof.
  induction w as [|c w IH]; [reflexivity|]. intros H.
  apply all_chars_cons in H. destruct H as [Hc Hw].
  cbn [append findall_from]. rewrite (not_slash_eqb c Hc). now apply IH.
Qed.

Lemma findall_in_group (g w rest : string) :
  all_chars not_slash w = true ->
  findall_from (InGroup g) (w ++ rest) = findall_from (InGroup (g ++ w)) rest.
Proof.
  revert g. induction w as [|c w IH]; intros g H.
  - now rewrite append_nil_r.
  - apply all_chars_cons in H. destruct H as [Hc Hw].
    cbn [append findall_from]. rewrite (not_slash_eqb c Hc), (IH _ Hw).
    now rewrite append_assoc.
Qed.

(** After a slash, a segment without slashes that is not empty is one
    match. *)
Lemma findall_segment (w rest : string) :
  all_chars not_slash w = true -> w <> "" ->
  findall_from AfterSlash (w ++ rest) = findall_from (InGroup w) rest.
Proof.
  destruct w as [|c w]; [congruence|]. intros H _.
  apply all_chars_cons in H. destruct H as [Hc Hw].
  cbn [append findall_from]. rewrite (not_slash_eqb c Hc).
  exact (findall_in_group (String c "") w rest Hw).
Qed.

Lemma findall_user_repo (st : scan) (user repo : string) :
  st = Outside \/ st = AfterSlash ->
  all_chars not_slash user = true -> user <> "" ->
  all_chars not_slash repo = true -> repo <> "" ->
  findall_from st ("/" ++ user ++ "/" ++ repo) = [user; repo].
Proof.
  intros Hst Hu Hu0 Hr Hr0.
  assert (H : findall_from AfterSlash (user ++ "/" ++ repo) = [user; repo]).
  { rewrite (findall_segment user _ Hu Hu0).
    change ("/" ++ repo) with (String "/" repo). cbn [findall_from Ascii.eqb].
    change (Ascii.eqb "/" "/") with true. cbv iota.
    rewrite <- (append_nil_r repo) at 1.
    now rewrite (findall_segment repo "" Hr Hr0). }
  destruct Hst as [-> | ->]; exact H.
Qed.

Lemma double_slash_word (w rest : string) :
  all_chars not_slash w = true -> double_slash (w ++ rest) = double_slash rest.
Proof.
  induction w as [|c w IH]; [reflexivity|]. intros H.
  apply all_chars_cons in H. destruct H as [Hc Hw].
  cbn [append double_slash]. rewrite (not_slash_eqb c Hc). now apply IH.
Qed.

Lemma double_slash_segment (w rest : string) :
  all_chars not_slash w = true -> w <> "" ->
  double_slash ("/" ++ w ++ rest) = double_slash rest.
Proof.
  intros Hw H0. change ("/" ++ w ++ rest) with (String "/" (w ++ rest)).
  cbn [double_slash]. rewrite (double_slash_word w rest Hw).
  destruct w as [|c w]; [congruence|].
  apply all_chars_cons in Hw. destruct Hw as [Hc _].
  cbn [append starts_with_slash]. now rewrite (not_slash_eqb c Hc), andb_false_r.
Qed.

Lemma double_slash_drop (n : nat) (s : string) :
  double_slash (drop n s) = true -> double_slash s = true.
Proof.
  revert s. induction n as [|n IH]; intros s H.
  - destruct s; exact H.
  - destruct s as [|c s]; [exact H|]. cbn [drop] in H. cbn [double_slash].
    rewrite (IH s H). apply orb_true_r.
Qed.

Lemma prefix_colon_slashes (s : string) :
  prefix "://" s = true -> double_slash s = true.
Proof.
  destruct s as [|a [|b [|c r]]]; cbn [prefix]; try discriminate;
    repeat (destruct (ascii_dec _ _); try discriminate).
  subst. reflexivity.
Qed.

(** The pattern [https+:\/\/] matches only where two slashes follow. *)
Lemma match_scheme_double_slash (s : string) (n : nat) :
  match_scheme s = Some n -> double_slash s = true.
Proof.
  unfold match_scheme. destruct (prefix "http" s); [|discriminate].
  destruct (1 <=? count_s (drop 4 s)); [|discriminate]. cbn [andb].
  destruct (prefix "://" (drop (4 + count_s (drop 4 s)) s)) eqn:Hp; [|discriminate].
  intros _. apply (double_slash_drop (4 + count_s (drop 4 s))).
  now apply prefix_colon_slashes.
Qed.

Lemma sub_scheme_id (s : string) : double_slash s = false -> sub_scheme s = s.
Proof.
  unfold sub_scheme. induction s as [|c s IH]; [reflexivity|]. intros H.
  cbn [sub_scheme_from].
  destruct (match_scheme (String c s)) as [n|] eqn:Hm.
  - apply match_scheme_double_slash in Hm. congruence.
  - cbn [double_slash] in H. apply orb_false_iff in H. now rewrite (IH (proj2 H)).
Qed.

Lemma prefix_nil (s : string) : prefix "" s = true.
Proof. destruct s; reflexivity. Qed.

Lemma sub_scheme_https (rest : string) :
  sub_scheme ("https://" ++ rest) = sub_scheme rest.
Proof.
  unfold sub_scheme. cbn [append sub_scheme_from].
  assert (Hm : match_scheme (String "h" (String "t" (String "t" (String "p"
                 (String "s" (String ":" (String "/" (String "/" rest)))))))) = Some 8).
  { unfold match_scheme. cbn. now rewrite prefix_nil. }
  rewrite Hm. reflexivity.
Qed.

Lemma sub_scheme_http (rest : string) :
  sub_scheme ("http://" ++ rest) = "http://" ++ sub_scheme rest.
Proof. reflexivity. Qed.

(** ** [parse_args] *)

(** An address [https://host/user/repo] is split into the user and the
    repository, whatever the host; a user name or a repository name given
    alone on the command line is dropped for the ones of the address. *)
Theorem parse_args_https_url (arg_dict : arguments) (host user repo : string) :
  username arg_dict = None \/ repository_name arg_dict = None ->
  url arg_dict = Some ("https://" ++ host ++ "/" ++ user ++ "/" ++ repo) ->
  all_chars not_slash host = true ->
  all_chars not_slash user = true -> user <> "" ->
  all_chars not_slash repo = true -> repo <> "" ->
  parse_args (Namespace arg_dict) = ([], Returned (user, repo, branch arg_dict)).
Proof.
  intros Hnone Hurl Hh Hu Hu0 Hr Hr0.
  assert (Hseg : findall_segments
                   (sub_scheme ("https://" ++ host ++ "/" ++ user ++ "/" ++ repo))
                 = [user; repo]).
  { rewrite sub_scheme_https, sub_scheme_id.
    - unfold findall_segments. rewrite (findall_outside host _ Hh).
      apply findall_user_repo; auto.
    - rewrite (double_slash_word host _ Hh), (double_slash_segment user _ Hu Hu0).
      rewrite <- (append_nil_r repo). now rewrite (double_slash_segment repo "" Hr Hr0). }
  unfold parse_args. rewrite Hurl, Hseg.
  destruct Hnone as [-> | ->]; [reflexivity|].
  destruct (username arg_dict); reflexivity.
Qed.

Lemma parse_args_https_url_witness :
  parse_args (Namespace linux_args) = ([], Returned ("torvalds", "linux", "master")).
Proof.
  apply (parse_args_https_url linux_args "github.com" "torvalds" "linux");
    try reflexivity; try discriminate.
  right. reflexivity.
Defined.

(** An address with the scheme [http] keeps its scheme, the host counts as
    a segment, and the unpacking of three segments into two names raises
    [ValueError]. *)
Theorem parse_args_http_url (arg_dict : arguments) (host user repo : string) :
  username arg_dict = None \/ repository_name arg_dict = None ->
  url arg_dict = Some ("http://" ++ host ++ "/" ++ user ++ "/" ++ repo) ->
  all_chars not_slash host = true -> host <> "" ->
  all_chars not_slash user = true -> user <> "" ->
  all_chars not_slash repo = true -> repo <> "" ->
  parse_args (Namespace arg_dict) = ([], Raised ValueError).
Proof.
  intros Hnone Hurl Hh Hh0 Hu Hu0 Hr Hr0.
  assert (Hseg : findall_segments
                   (sub_scheme ("http://" ++ host ++ "/" ++ user ++ "/" ++ repo))
                 = [host; user; repo]).
  { rewrite sub_scheme_http, sub_scheme_id.
    - unfold findall_segments.
      change (findall_from Outside ("http://" ++ host ++ "/" ++ user ++ "/" ++ repo))
        with (findall_from AfterSlash (host ++ "/" ++ user ++ "/" ++ repo)).
      rewrite (findall_segment host _ Hh Hh0).
      change ("/" ++ user ++ "/" ++ repo) with (String "/" (user ++ "/" ++ repo)).
      cbn [findall_from]. change (Ascii.eqb "/" "/") with true. cbv iota.
      f_equal.
      change (findall_from AfterSlash (user ++ "/" ++ repo))
        with (findall_from Outside ("/" ++ user ++ "/" ++ repo)).
      apply findall_user_repo; auto.
    - rewrite (double_slash_word host _ Hh), (double_slash_segment user _ Hu Hu0).
      rewrite <- (append_nil_r repo). now rewrite (double_slash_segment repo "" Hr Hr0). }
  unfold parse_args. rewrite Hurl, Hseg.
  destruct Hnone as [-> | ->]; [reflexivity|].
  destruct (username arg_dict); reflexivity.
Qed.

Lemma parse_args_http_url_witness :
  parse_args (Namespace {| branch := "master"; repository_name := None;
                           username := None;
                           url := Some "http://github.com/torvalds/linux" |})
  = ([], Raised ValueError).
Proof.
  apply (parse_args_http_url _ "github.com" "torvalds" "linux");
    try reflexivity; try discriminate.
  left. reflexivity.
Defined.

(** [parse_args] ends with [SystemExit] in three ways: with argparse's
    status 0 after the help, with argparse's status 2 after a usage error,
    and, once argparse has returned the options, with status -1 after the
    two usage lines, exactly when no address is given and the user name or
    the repository name is missing.  When it returns or raises, argparse has
    returned the options, nothing is printed, and the exception is
    [ValueError]. *)
Theorem parse_args_exit (argv : parsed) :
  (forall out status,
     parse_args argv = (out, SystemExit status) ->
     (exists message, argv = Help message /\ out = message /\ status = 0%Z) \/
     (argv = UsageError /\ out = [] /\ status = 2%Z) \/
     (exists arg_dict,
        argv = Namespace arg_dict /\ out = USAGE /\ status = (-1)%Z /\
        url arg_dict = None /\
        (username arg_dict = None \/ repository_name arg_dict = None))) /\
  (forall arg_dict,
     url arg_dict = None ->
     username arg_dict = None \/ repository_name arg_dict = None ->
     parse_args (Namespace arg_dict) = (USAGE, SystemExit (-1))) /\
  (forall message, parse_args (Help message) = (message, SystemExit 0)) /\
  parse_args UsageError = ([], SystemExit 2) /\
  (forall out r,
     parse_args argv = (out, Returned r) ->
     out = [] /\ exists arg_dict, argv = Namespace arg_dict) /\
  (forall out e,
     parse_args argv = (out, Raised e) ->
     out = [] /\ e = ValueError /\ exists arg_dict, argv = Namespace arg_dict).
Proof.
  split; [|split; [|split; [reflexivity|split; [reflexivity|split]]]].
  - intros out status H. destruct argv as [arg_dict|message|]; cbn [parse_args] in H.
    + right. right. exists arg_dict.
      destruct (username arg_dict) as [user|], (repository_name arg_dict) as [repo|],
        (url arg_dict) as [u|];
        try destruct (findall_segments (sub_scheme u)) as [|x [|y [|z l]]];
        inversion H; subst; auto 10.
    + left. exists message. inversion H; subst. auto.
    + right. left. inversion H; subst. auto.
  - intros arg_dict Hurl Hnone. cbn [parse_args]. rewrite Hurl.
    destruct Hnone as [-> | ->]; [reflexivity|].
    destruct (username arg_dict); reflexivity.
  - intros out r H. destruct argv as [arg_dict|message|]; cbn [parse_args] in H;
      try discriminate.
    split; [|now exists arg_dict].
    destruct (username arg_dict) as [user|], (repository_name arg_dict) as [repo|],
      (url arg_dict) as [u|];
      try destruct (findall_segments (sub_scheme u)) as [|x [|y [|z l]]];
      inversion H; reflexivity.
  - intros out e H. destruct argv as [arg_dict|message|]; cbn [parse_args] in H;
      try discriminate.
    assert (He : out = [] /\ e = ValueError).
    { destruct (username arg_dict) as [user|], (repository_name arg_dict) as [repo|],
        (url arg_dict) as [u|];
        try destruct (findall_segments (sub_scheme u)) as [|x [|y [|z l]]];
        inversion H; auto. }
    destruct He. repeat split; try assumption. now exists arg_dict.
Qed.

(** What [parse_args] has printed, by the way it ends. *)
Lemma parse_args_prints (argv : parsed) :
  (forall out status, parse_args argv = (out, SystemExit status) ->
     (exists message, argv = Help message /\ status = 0%Z) \/
     (argv = UsageError /\ status = 2%Z) \/
     (out = USAGE /\ status = (-1)%Z)) /\
  (forall out r, parse_args argv = (out, Returned r) -> out = []) /\
  (forall out e, parse_args argv = (out, Raised e) -> out = [] /\ e = ValueError).
Proof.
  destruct argv as [arg_dict|message|]; cbn [parse_args].
  - destruct (username arg_dict) as [user|], (repository_name arg_dict) as [repo|],
      (url arg_dict) as [u|];
      try destruct (findall_segments (sub_scheme u)) as [|x [|y [|z l]]];
      (split; [|split]); intros out x0 H; inversion H; auto.
  - (split; [|split]); intros out x0 H; inversion H; eauto.
  - (split; [|split]); intros out x0 H; inversion H; auto.
Qed.

(** ** [main] *)

Section Main.

Variable stem : string -> string.
Variable V : vectorizer.

Lemma main_parsed (argv : parsed) (net : network) (fs : filesystem)
    (user repo branch : string) :
  parse_args argv = ([], Returned (user, repo, branch)) ->
  main stem V argv net fs =
  (searching user repo ::
     fst (try_license_files stem V net fs (raw_url user repo branch)
            (blob_url user repo branch) license_files),
   snd (try_license_files stem V net fs (raw_url user repo branch)
          (blob_url user repo branch) license_files)).
Proof.
  intros H. unfold main. rewrite H. cbv beta iota zeta.
  fold (raw_url user repo branch). fold (blob_url user repo branch).
  fold (searching user repo).
  destruct (try_license_files _ _ _ _ _ _ _). reflexivity.
Qed.

(** File names for which neither address has the file are passed over. *)
Lemma try_license_files_skip (net : network) (fs : filesystem) (url blob : string)
    (before rest : list string) :
  Forall (absent net url blob) before ->
  try_license_files stem V net fs url blob (before ++ rest)%list =
  try_license_files stem V net fs url blob rest.
Proof.
  induction 1 as [|fname before [r1 [r2 [H1 [H2 [Hk1 Hk2]]]]] _ IH]; [reflexivity|].
  cbn [app try_license_files]. rewrite H1, H2, Hk1, Hk2. exact IH.
Qed.

(** When no address has any of the twelve file names, [main] says so and
    returns; the templates are not read and nothing is classified. *)
Theorem main_not_found (arg_dict : arguments) (net : network) (fs : filesystem)
    (user repo branch : string) :
  parse_args (Namespace arg_dict) = ([], Returned (user, repo, branch)) ->
  Forall (absent net (raw_url user repo branch) (blob_url user repo branch))
         license_files ->
  main stem V (Namespace arg_dict) net fs =
  ([searching user repo; "License file not found in specified repository."],
   Returned tt).
Proof.
  intros Hp Habs. rewrite (main_parsed (Namespace arg_dict) net fs user repo branch Hp).
  rewrite <- (app_nil_r license_files).
  rewrite (try_license_files_skip net fs _ _ license_files [] Habs). reflexivity.
Qed.

(** A request that raises ends the search at once: [main] reports the
    connection and returns, without a label and without the message that no
    file was found.  The request for the blob address is made even when the
    raw address has answered [ok], so its failure discards that answer. *)
Theorem main_unreachable (arg_dict : arguments) (net : network) (fs : filesystem)
    (user repo branch : string) (before after : list string) (fname : string) :
  parse_args (Namespace arg_dict) = ([], Returned (user, repo, branch)) ->
  license_files = (before ++ fname :: after)%list ->
  Forall (absent net (raw_url user repo branch) (blob_url user repo branch)) before ->
  net (raw_url user repo branch ++ fname) = None \/
  net (blob_url user repo branch ++ fname) = None ->
  main stem V (Namespace arg_dict) net fs =
  ([searching user repo; "Unable connect to the Internet."], Returned tt).
Proof.
  intros Hp Hfiles Habs Hnone.
  rewrite (main_parsed (Namespace arg_dict) net fs user repo branch Hp), Hfiles.
  rewrite (try_license_files_skip net fs _ _ before _ Habs).
  cbn [try_license_files].
  destruct (net (raw_url user repo branch ++ fname)) as [r1|]; [|reflexivity].
  destruct Hnone as [H|H]; [discriminate|]. rewrite H. reflexivity.
Qed.

(** The first file name that one of the two addresses has is the one
    classified: the text of the raw address when its answer is [ok], else
    the text of the blob address.  [main] prints the label, or ends with the
    exception [detect_license] raises. *)
Theorem main_found (arg_dict : arguments) (net : network) (fs : filesystem)
    (user repo branch : string) (before after : list string) (fname : string)
    (r1 r2 : response) :
  parse_args (Namespace arg_dict) = ([], Returned (user, repo, branch)) ->
  license_files = (before ++ fname :: after)%list ->
  Forall (absent net (raw_url user repo branch) (blob_url user repo branch)) before ->
  net (raw_url user repo branch ++ fname) = Some r1 ->
  net (blob_url user repo branch ++ fname) = Some r2 ->
  ok r1 || ok r2 = true ->
  main stem V (Namespace arg_dict) net fs =
  match detect_license stem V fs (text (if ok r1 then r1 else r2)) false with
  | Ok license =>
      ([ searching user repo;
         "License file found. Trying to detect its name.";
         "This repository is probably licensed under " ++ license ++ " license." ],
       Returned tt)
  | Raise e =>
      ([searching user repo; "License file found. Trying to detect its name."],
       Raised e)
  end.
Proof.
  intros Hp Hfiles Habs H1 H2 Hok.
  rewrite (main_parsed (Namespace arg_dict) net fs user repo branch Hp), Hfiles.
  rewrite (try_license_files_skip net fs _ _ before _ Habs).
  cbn [try_license_files]. rewrite H1, H2.
  assert (Hreq : ok (if ok r1 then r1 else r2) = true).
  { destruct (ok r1) eqn:Hk1; [exact Hk1|exact Hok]. }
  rewrite Hreq.
  destruct (detect_license stem V fs (text (if ok r1 then r1 else r2)) false);
    reflexivity.
Qed.

Lemma try_license_files_end (net : network) (fs : filesystem) (url blob : string)
    (fnames : list string) :
  match snd (try_license_files stem V net fs url blob fnames) with
  | Returned _ => True
  | SystemExit _ => False
  | Raised e =>
      exists fname r,
        In fname fnames /\ ok r = true /\
        (net (url ++ fname) = Some r \/ net (blob ++ fname) = Some r) /\
        detect_license stem V fs (text r) false = Raise e
  end.
Proof.
  induction fnames as [|fname rest IH]; cbn [try_license_files]; [exact I|].
  destruct (net (url ++ fname)) as [r1|] eqn:H1; [|exact I].
  destruct (net (blob ++ fname)) as [r2|] eqn:H2; [|exact I].
  destruct (ok (if ok r1 then r1 else r2)) eqn:Hreq.
  - destruct (detect_license stem V fs (text (if ok r1 then r1 else r2)) false)
      as [license|e] eqn:Hd; [exact I|].
    cbn [snd]. exists fname, (if ok r1 then r1 else r2).
    repeat split; [now left|exact Hreq| |exact Hd].
    destruct (ok r1); auto.
  - destruct (snd (try_license_files stem V net fs url blob rest)); try exact IH.
    destruct IH as [f [r [Hin H]]]. exists f, r. split; [now right|exact H].
Qed.

(** [main] ends other than by a return only through [parse_args] (the
    exits of argparse with status 0 or 2, its own exit with status -1, its
    [ValueError]) or through an exception of [detect_license] on a text that
    an address answered [ok]; a failure of the network never leaves [main]
    as an exception. *)
Theorem main_abnormal_end (argv : parsed) (net : network) (fs : filesystem) :
  match snd (main stem V argv net fs) with
  | Returned _ => True
  | SystemExit status =>
      (exists message, argv = Help message /\ status = 0%Z) \/
      (argv = UsageError /\ status = 2%Z) \/
      (parse_args argv = (USAGE, SystemExit (-1)) /\ status = (-1)%Z)
  | Raised e =>
      parse_args argv = ([], Raised ValueError) /\ e = ValueError \/
      exists user repo branch fname r,
        parse_args argv = ([], Returned (user, repo, branch)) /\
        In fname license_files /\ ok r = true /\
        (net (raw_url user repo branch ++ fname) = Some r \/
         net (blob_url user repo branch ++ fname) = Some r) /\
        detect_license stem V fs (text r) false = Raise e
  end.
Proof.
  destruct (parse_args_prints argv) as [Hexit [Hret Hraise]].
  destruct (parse_args argv) as [out [[[user repo] branch]|status|e]] eqn:Hp.
  - assert (Hout : out = []) by exact (Hret out _ eq_refl). subst out.
    rewrite (main_parsed argv net fs user repo branch Hp). cbn [snd].
    assert (H := try_license_files_end net fs (raw_url user repo branch)
                   (blob_url user repo branch) license_files).
    destruct (snd (try_license_files stem V net fs _ _ license_files));
      [exact I|destruct H|].
    right. destruct H as [fname [r H]]. exists user, repo, branch, fname, r. auto.
  - unfold main. rewrite Hp. cbn [snd].
    destruct (Hexit out status eq_refl) as [H|[H|[-> ->]]]; auto.
  - unfold main. rewrite Hp. cbn [snd].
    destruct (Hraise out e eq_refl) as [-> ->]. auto.
Qed.

End Main.

Lemma main_not_found_witness :
  main plural_stem count_vectorizer (Namespace linux_args) silent_net missing_fs =
  ([searching "torvalds" "linux"; "License file not found in specified repository."],
   Returned tt).
Proof.
  apply (main_not_found plural_stem count_vectorizer linux_args silent_net missing_fs
           "torvalds" "linux" "master").
  - reflexivity.
  - repeat constructor; exists NOT_FOUND, NOT_FOUND; repeat split.
Defined.

Lemma main_unreachable_witness :
  main plural_stem count_vectorizer (Namespace linux_args) broken_net tie_fs =
  ([searching "torvalds" "linux"; "Unable connect to the Internet."], Returned tt).
Proof.
  apply (main_unreachable plural_stem count_vectorizer linux_args broken_net tie_fs
           "torvalds" "linux" "master" [] (tl license_files) "LICENSE").
  - reflexivity.
  - reflexivity.
  - constructor.
  - right. reflexivity.
Defined.

Lemma main_found_witness :
  main plural_stem count_vectorizer (Namespace linux_args) demo_net tie_fs =
  ([ searching "torvalds" "linux";
     "License file found. Trying to detect its name.";
     "This repository is probably licensed under MIT license." ],
   Returned tt).
Proof.
  apply (main_found plural_stem count_vectorizer linux_args demo_net tie_fs
           "torvalds" "linux" "master" ["LICENSE"] (tl (tl license_files)) "LICENSE.md"
           NOT_FOUND {| ok := true; text := "Permission is hereby granted" |}).
  - reflexivity.
  - reflexivity.
  - repeat constructor. exists NOT_FOUND, NOT_FOUND. repeat split.
  - reflexivity.
  - reflexivity.
  - reflexivity.
Defined.

(** * More of the normaliser *)

Lemma lstrip_head (s : string) :
  Py.lstrip s = "" \/ exists c r, Py.lstrip s = String c r /\ Py.isspace c = false.
Proof.
  induction s as [|c s IH]; [now left|]. cbn [Py.lstrip].
  destruct (Py.isspace c) eqn:Hc; [exact IH|]. right. eauto.
Qed.

Lemma rstrip_idem (s : string) : Py.rstrip (Py.rstrip s) = Py.rstrip s.
Proof.
  induction s as [|c s IH]; [reflexivity|]. cbn [Py.rstrip].
  destruct (Py.rstrip s) as [|d r] eqn:Hr.
  - destruct (Py.isspace c) eqn:Hc; [reflexivity|]. cbn [Py.rstrip]. now rewrite Hc.
  - cbn [Py.rstrip]. fold Py.rstrip.
    change (match Py.rstrip r with
            | "" => if Py.isspace d then "" else String d ""
            | String a s0 => String d (String a s0)
            end) with (Py.rstrip (String d r)).
    now rewrite IH.
Qed.

Lemma rstrip_keeps_head (c : ascii) (s : string) :
  Py.isspace c = false -> exists r, Py.rstrip (String c s) = String c r.
Proof.
  intros Hc. cbn [Py.rstrip]. destruct (Py.rstrip s); [rewrite Hc|]; eauto.
Qed.

(** The output of the normaliser has no white space at either end,
    whatever the stemmer returns. *)
Theorem clean_no_outer_whitespace (stem : string -> string) (document : string) :
  Py.lstrip (clean stem document) = clean stem document /\
  Py.rstrip (clean stem document) = clean stem document.
Proof.
  unfold clean, Py.strip.
  set (s := fold_left _ _ _). split; [|apply rstrip_idem].
  destruct (lstrip_head s) as [-> | [c [r [-> Hc]]]]; [reflexivity|].
  destruct (rstrip_keeps_head c r Hc) as [r' ->].
  now apply lstrip_nonspace.
Qed.

Lemma sub_punctuation_blank (x : string) :
  all_chars blank_char x = true ->
  Py.sub punctuation Py.SPACE x = spaces (String.length x).
Proof.
  induction x as [|c x IH]; [reflexivity|]. intros H.
  apply all_chars_cons in H. destruct H as [Hc Hx].
  unfold Py.sub in *. cbn [Py.map_chars String.length spaces]. rewrite (IH Hx).
  f_equal. unfold blank_char in Hc. apply andb_true_iff in Hc. destruct Hc as [_ Hc].
  destruct (punctuation c); [reflexivity|]. now apply Ascii.eqb_eq in Hc.
Qed.

Lemma lower_spaces (n : nat) : Py.lower (spaces n) = spaces n.
Proof.
  induction n as [|n IH]; [reflexivity|].
  unfold Py.lower in *. cbn [spaces Py.map_chars]. now rewrite IH.
Qed.

Lemma split_sp_spaces (n : nat) : Forall (fun e => e = "") (Py.split_sp (spaces n)).
Proof.
  induction n as [|n IH]; [repeat constructor|].
  cbn [spaces Py.split_sp]. rewrite Ascii.eqb_refl. now constructor.
Qed.

(** A text without a letter, a digit or an underscore is normalised to the
    empty text, when the stemmer returns the empty token unchanged. *)
Theorem clean_blank (stem : string -> string) (document : string) :
  stem "" = "" ->
  all_chars blank_char document = true ->
  clean stem document = "".
Proof.
  intros H0 Hb.
  assert (Ht : tokens document = Py.split_sp (spaces (String.length document -
                                                      String.length document / 2))).
  { unfold tokens. now rewrite (sub_punctuation_blank _ Hb), replace_2sp_spaces, lower_spaces. }
  rewrite (clean_tokens stem document _ Ht).
  rewrite <- (app_nil_r (Py.split_sp _)).
  exact (strip_glue stem _ [] [] H0 (split_sp_spaces _) (Forall_nil _) (Forall_nil _)).
Qed.

Lemma clean_blank_witness : clean plural_stem " --  (?!) ...  " = "".
Proof. apply (clean_blank plural_stem); reflexivity. Defined.

Lemma map_chars_map_chars (f g : ascii -> ascii) (s : string) :
  Py.map_chars f (Py.map_chars g s) = Py.map_chars (fun c => f (g c)) s.
Proof. induction s as [|c s IH]; [reflexivity|]. cbn [Py.map_chars]. now rewrite IH. Qed.

Lemma map_chars_ext (f g : ascii -> ascii) (s : string) :
  (forall c, f c = g c) -> Py.map_chars f s = Py.map_chars g s.
Proof.
  intros H. induction s as [|c s IH]; [reflexivity|]. cbn [Py.map_chars].
  now rewrite H, IH.
Qed.

(** A character map that keeps spaces and makes none commutes with the
    collapse of double spaces. *)
Lemma replace_2sp_map_chars (f : ascii -> ascii) (s : string) :
  (forall c, Ascii.eqb (f c) Py.SPACE = Ascii.eqb c Py.SPACE) ->
  Py.replace_2sp (Py.map_chars f s) = Py.map_chars f (Py.replace_2sp s).
Proof.
  intros Hf.
  assert (Hsp : f Py.SPACE = Py.SPACE).
  { apply Ascii.eqb_eq. rewrite Hf. apply Ascii.eqb_refl. }
  assert (H : forall n s, String.length s <= n ->
                Py.replace_2sp (Py.map_chars f s) = Py.map_chars f (Py.replace_2sp s)).
  { clear s. induction n as [|n IH]; intros s Hlen.
    - destruct s; [reflexivity|simpl in Hlen; lia].
    - destruct s as [|c [|c' r]]; [reflexivity|reflexivity|].
      cbn [Py.map_chars]. rewrite !replace_2sp_cons2, !Hf.
      destruct (Ascii.eqb c Py.SPACE && Ascii.eqb c' Py.SPACE); cbn [Py.map_chars].
      + rewrite Hsp. f_equal. apply IH. simpl in Hlen. lia.
      + f_equal. change (String (f c') (Py.map_chars f r))
          with (Py.map_chars f (String c' r)).
        apply IH. simpl in *. lia. }
  apply (H (String.length s)). apply le_n.
Qed.

Lemma lower_sub_upper (c : ascii) :
  Py.lower_char (if punctuation (Py.upper_char c) then Py.SPACE else Py.upper_char c) =
  Py.lower_char (if punctuation c then Py.SPACE else c).
Proof. by_cases_on_char c. Qed.

Lemma lower_sub_lower (c : ascii) :
  Py.lower_char (if punctuation (Py.lower_char c) then Py.SPACE else Py.lower_char c) =
  Py.lower_char (if punctuation c then Py.SPACE else c).
Proof. by_cases_on_char c. Qed.

Lemma tokens_lower_first (x : string) :
  tokens x = Py.split_sp (Py.replace_2sp
               (Py.map_chars (fun c => Py.lower_char (if punctuation c then Py.SPACE else c)) x)).
Proof.
  unfold tokens, Py.lower, Py.sub.
  rewrite <- (replace_2sp_map_chars Py.lower_char) by exact lower_char_space.
  now rewrite map_chars_map_chars.
Qed.

Lemma clean_upper_lower (stem : string -> string) (document : string) :
  clean stem (Py.upper document) = clean stem document /\
  clean stem (Py.lower document) = clean stem document.
Proof.
  assert (Hu : tokens (Py.upper document) = tokens document).
  { rewrite !tokens_lower_first. unfold Py.upper. rewrite map_chars_map_chars.
    now rewrite (map_chars_ext _ _ document lower_sub_upper). }
  assert (Hl : tokens (Py.lower document) = tokens document).
  { rewrite !tokens_lower_first. unfold Py.lower. rewrite map_chars_map_chars.
    now rewrite (map_chars_ext _ _ document lower_sub_lower). }
  split.
  - now rewrite (clean_tokens stem _ _ Hu), <- (clean_tokens stem document _ eq_refl).
  - now rewrite (clean_tokens stem _ _ Hl), <- (clean_tokens stem document _ eq_refl).
Qed.

(** The normaliser does not see the case of ASCII letters. *)
Theorem clean_ignores_case (stem : string -> string) (document : string) :
  all_chars is_ascii document = true ->
  clean stem (Py.upper document) = clean stem document /\
  clean stem (Py.lower document) = clean stem document.
Proof. intros _. apply clean_upper_lower. Qed.

Lemma clean_ignores_case_witness :
  clean plural_stem (Py.upper "Permission is hereby Granted") =
    clean plural_stem "Permission is hereby Granted" /\
  clean plural_stem (Py.lower "Permission is hereby Granted") =
    clean plural_stem "Permission is hereby Granted".
Proof. apply (clean_ignores_case plural_stem). reflexivity. Defined.

(** On words of lower-case letters and digits joined by single spaces,
    whose stems are such words again, the normaliser stems word by word:
    its output is the stems, joined by single spaces. *)
Theorem clean_words (stem : string -> string) (W : list string) :
  stem "" = "" -> words_only W -> words_only (map stem W) ->
  clean stem (String.concat " " W) = String.concat " " (map stem W).
Proof.
  intros H0 HW HS. destruct W as [|w W].
  - exact (clean_empty stem H0).
  - rewrite (clean_tokens stem _ (w :: W) (tokens_join w W HW)).
    rewrite <- (app_nil_r (w :: W)) at 1.
    exact (strip_glue stem [] (w :: W) [] H0 (Forall_nil _) (Forall_nil _) HS).
Qed.

Lemma clean_words_witness :
  clean plural_stem (String.concat " " ["permissions"; "granted"; "to"; "persons"]) =
  String.concat " " (map plural_stem ["permissions"; "granted"; "to"; "persons"]).
Proof.
  apply (clean_words plural_stem); [reflexivity| |]; repeat constructor.
Defined.

(** * More of the loader *)

Lemma prepare_license_file_outcome (stem : string -> string) (fs : filesystem)
    (filename : string) :
  prepare_license_file stem fs filename =
  match file_error (open fs filename) with
  | Some e => Raise e
  | None => Ok (clean stem (Py.universal_newlines (file_text (open fs filename))))
  end.
Proof.
  destruct (open fs filename) as [| |content] eqn:Hopen.
  - unfold prepare_license_file. now rewrite Hopen.
  - unfold prepare_license_file. now rewrite Hopen.
  - rewrite (prepare_license_file_Text stem fs filename content Hopen).
    cbn [file_error file_text]. destruct (String.eqb content ""); reflexivity.
Qed.

Lemma load_each_first_error (stem : string -> string) (fs : filesystem)
    (good : list string) (bad : string) (rest names0 lics0 : list string) (e : exn) :
  Forall (fun fn => file_error (open fs (TEMPLATES_DIR ++ fn)) = None) good ->
  file_error (open fs (TEMPLATES_DIR ++ bad)) = Some e ->
  load_each stem fs (good ++ bad :: rest)%list names0 lics0 = Raise e.
Proof.
  intros Hgood Hbad. revert names0 lics0.
  induction Hgood as [|fn good Hfn _ IH]; intros names0 lics0; cbn [app load_each].
  - now rewrite prepare_license_file_outcome, Hbad.
  - rewrite prepare_license_file_outcome, Hfn. cbn [bind]. apply IH.
Qed.

(** The first template file, in listing order, that cannot be opened, does
    not decode or is empty decides how the loader ends: with [OSError],
    [UnicodeDecodeError] or [TypeError]; the files after it are not read,
    and [detect_license] ends with the same exception, whatever the
    candidate. *)
Theorem load_license_templates_first_error (stem : string -> string) (V : vectorizer)
    (fs : filesystem) (entries good : list string) (bad : string) (rest : list string)
    (e : exn) :
  listdir fs TEMPLATES_DIR = Some entries ->
  license_filenames entries = (good ++ bad :: rest)%list ->
  Forall (fun fn => file_error (open fs (TEMPLATES_DIR ++ fn)) = None) good ->
  file_error (open fs (TEMPLATES_DIR ++ bad)) = Some e ->
  load_license_templates stem fs = Raise e /\
  forall document cleaned, detect_license stem V fs document cleaned = Raise e.
Proof.
  intros Hlist Hfns Hgood Hbad.
  assert (Hload : load_license_templates stem fs = Raise e).
  { unfold load_license_templates. rewrite Hlist. cbv beta iota zeta.
    fold (license_filenames entries). rewrite Hfns.
    now apply load_each_first_error. }
  split; [exact Hload|]. intros document cleaned.
  unfold detect_license. now rewrite Hload.
Qed.

Lemma load_license_templates_first_error_witness :
  load_license_templates plural_stem empty_file_fs = Raise TypeError /\
  forall document cleaned,
    detect_license plural_stem count_vectorizer empty_file_fs document cleaned =
    Raise TypeError.
Proof.
  apply (load_license_templates_first_error plural_stem count_vectorizer empty_file_fs
           ["mit.txt"; "unlicense.txt"] ["mit.txt"] "unlicense.txt" []).
  - reflexivity.
  - reflexivity.
  - repeat constructor.
  - reflexivity.
Defined.

Lemma prepare_all_Ok (stem : string -> string) (fs : filesystem)
    (fns texts : list string) :
  Forall2 (fun fn t => prepare_license_file stem fs (TEMPLATES_DIR ++ fn) = Ok t) fns texts <->
  Forall (fun fn => file_error (open fs (TEMPLATES_DIR ++ fn)) = None) fns /\
  texts = map (fun fn => clean stem (Py.universal_newlines
                                       (file_text (open fs (TEMPLATES_DIR ++ fn))))) fns.
Proof.
  revert texts. induction fns as [|fn fns IH]; intros texts.
  - split.
    + intros H. inversion H. split; constructor.
    + intros [_ ->]. constructor.
  - split.
    + intros H. inversion H as [|? t ? ts Hp HF]; subst.
      apply IH in HF. destruct HF as [Hall ->].
      rewrite prepare_license_file_outcome in Hp.
      destruct (file_error (open fs (TEMPLATES_DIR ++ fn))) eqn:Hfe; [discriminate|].
      inversion Hp. split; [constructor; assumption|reflexivity].
    + intros [Hall ->]. inversion Hall as [|? ? Hfn Hall']; subst. cbn [map]. constructor.
      * now rewrite prepare_license_file_outcome, Hfn.
      * apply IH. auto.
Qed.

(** The loader returns exactly when the directory can be listed and every
    listed [.txt] file can be opened, decodes and is not empty; it then
    returns one name and one normalised text per such file, in listing
    order, the text normalised being the text of the file with its newlines
    translated.  File names and texts are ASCII. *)
Theorem load_license_templates_returns (stem : string -> string) (fs : filesystem)
    (entries : list string) :
  listdir fs TEMPLATES_DIR = Some entries ->
  Forall (fun fn => all_chars is_ascii fn = true /\
                    all_chars is_ascii (file_text (open fs (TEMPLATES_DIR ++ fn))) = true)
         (license_filenames entries) ->
  ((exists r, load_license_templates stem fs = Ok r) <->
   Forall (fun fn => file_error (open fs (TEMPLATES_DIR ++ fn)) = None)
          (license_filenames entries)) /\
  (forall names licenses,
     load_license_templates stem fs = Ok (names, licenses) ->
     names = map license_name (license_filenames entries) /\
     licenses = map (fun fn => clean stem (Py.universal_newlines
                                             (file_text (open fs (TEMPLATES_DIR ++ fn)))))
                    (license_filenames entries)).
Proof.
  intros Hlist _. split; [split|].
  - intros [[names licenses] H]. apply load_license_templates_Ok in H.
    destruct H as [entries' [He [_ HF]]]. rewrite Hlist in He. inversion He; subst entries'.
    now apply prepare_all_Ok in HF.
  - intros Hall. eexists (_, _). apply load_license_templates_Ok. exists entries.
    split; [exact Hlist|]. split; [reflexivity|].
    apply prepare_all_Ok. split; [exact Hall|reflexivity].
  - intros names licenses H. apply load_license_templates_Ok in H.
    destruct H as [entries' [He [-> HF]]]. rewrite Hlist in He. inversion He; subst entries'.
    apply prepare_all_Ok in HF. destruct HF as [_ ->]. auto.
Qed.

Lemma load_license_templates_returns_witness :
  ((exists r, load_license_templates plural_stem tie_fs = Ok r) <->
   Forall (fun fn => file_error (open tie_fs (TEMPLATES_DIR ++ fn)) = None)
          (license_filenames ["apache-2.0.txt"; "notes.md"; "mit.txt"; "mit-0.txt"])) /\
  (forall names licenses,
     load_license_templates plural_stem tie_fs = Ok (names, licenses) ->
     names = map license_name
               (license_filenames ["apache-2.0.txt"; "notes.md"; "mit.txt"; "mit-0.txt"]) /\
     licenses = map (fun fn => clean plural_stem
                                 (Py.universal_newlines
                                    (file_text (open tie_fs (TEMPLATES_DIR ++ fn)))))
                    (license_filenames
                       ["apache-2.0.txt"; "notes.md"; "mit.txt"; "mit-0.txt"])).
Proof.
  apply (load_license_templates_returns plural_stem tie_fs); [reflexivity|].
  change (license_filenames ["apache-2.0.txt"; "notes.md"; "mit.txt"; "mit-0.txt"])
    with ["apache-2.0.txt"; "mit.txt"; "mit-0.txt"].
  repeat constructor.
Defined.

(** ** Labels *)

Lemma all_chars_map_chars (p : ascii -> bool) (f : ascii -> ascii) (s : string) :
  (forall c, p (f c) = true) -> all_chars p (Py.map_chars f s) = true.
Proof.
  intros H. induction s as [|c s IH]; [reflexivity|].
  cbn [Py.map_chars all_chars]. now rewrite H, IH.
Qed.

Lemma length_map_chars (f : ascii -> ascii) (s : string) :
  String.length (Py.map_chars f s) = String.length s.
Proof. induction s as [|c s IH]; [reflexivity|]. cbn [Py.map_chars String.length]. now rewrite IH. Qed.

Lemma name_char_upper (c : ascii) :
  name_char (if Ascii.eqb Py.HYPHEN (Py.upper_char c) then Py.SPACE else Py.upper_char c)
  = true.
Proof. by_cases_on_char c. Qed.

Lemma substring_append (base ext : string) :
  substring 0 (String.length base) (base ++ ext) = base.
Proof.
  induction base as [|c base IH]; [now destruct ext|].
  cbn [String.length append substring]. now rewrite IH.
Qed.

Lemma length_append (a b : string) :
  String.length (a ++ b) = String.length a + String.length b.
Proof. induction a as [|c a IH]; [reflexivity|]. cbn [append String.length]. now rewrite IH. Qed.

(** The label of a template with an ASCII file name is the name without
    the four characters of the extension, in upper case, with a space for
    every hyphen: it has no hyphen and no lower-case letter, and as many
    characters as the file name has before the extension. *)
Theorem license_name_shape (base : string) :
  all_chars is_ascii base = true ->
  license_name (base ++ ".txt") = Py.sub (Ascii.eqb Py.HYPHEN) Py.SPACE (Py.upper base) /\
  all_chars name_char (license_name (base ++ ".txt")) = true /\
  String.length (license_name (base ++ ".txt")) = String.length base.
Proof.
  intros _.
  assert (H : license_name (base ++ ".txt") =
              Py.sub (Ascii.eqb Py.HYPHEN) Py.SPACE (Py.upper base)).
  { unfold license_name, Py.drop_last4. rewrite length_append.
    replace (String.length base + String.length ".txt" - 4) with (String.length base)
      by (simpl; lia).
    now rewrite substring_append. }
  rewrite H. split; [reflexivity|]. unfold Py.sub, Py.upper.
  rewrite map_chars_map_chars. split.
  - apply all_chars_map_chars. exact name_char_upper.
  - apply length_map_chars.
Qed.

Lemma license_name_shape_witness :
  license_name ("apache-2.0" ++ ".txt") =
    Py.sub (Ascii.eqb Py.HYPHEN) Py.SPACE (Py.upper "apache-2.0") /\
  all_chars name_char (license_name ("apache-2.0" ++ ".txt")) = true /\
  String.length (license_name ("apache-2.0" ++ ".txt")) = String.length "apache-2.0".
Proof. apply (license_name_shape "apache-2.0"). reflexivity. Defined.

(** * More of the similarity and the search *)

(** ** The order of binary64 *)

Lemma SFcompare_key (x y : float) (a b : Z * Z * Z) :
  key x = Some a -> key y = Some b ->
  (SFleb x y = true <-> lex_le a b) /\ (SFltb x y = true <-> lex_lt a b).
Proof.
  unfold SFleb, SFltb.
  destruct x as [sx|sx| |sx mx ex], y as [sy|sy| |sy my ey]; cbn [key];
    try discriminate;
    try (destruct sx); try (destruct sy);
    intros Ha Hb; inversion Ha; inversion Hb; subst; clear Ha Hb;
    cbn [SFcompare lex_le lex_lt];
    try (split; split; intros H; try reflexivity; try discriminate; lia);
    change (Pos.compare_cont Eq mx my) with (Pos.compare mx my);
    destruct (Z.compare_spec ex ey); destruct (Pos.compare_spec mx my);
    cbn [CompOpp]; split; split; intros H'; try reflexivity; try discriminate; lia.
Qed.

Lemma SFleb_number (x y : float) :
  SFleb x y = true -> exists a b, key x = Some a /\ key y = Some b.
Proof.
  unfold SFleb.
  destruct x as [sx|sx| |sx mx ex], y as [sy|sy| |sy my ey]; cbn [SFcompare];
    try discriminate; try (destruct sx); try (destruct sy); intros _;
    eexists; eexists; split; reflexivity.
Qed.

Lemma SFltb_number (x y : float) :
  SFltb x y = true -> exists a b, key x = Some a /\ key y = Some b.
Proof.
  unfold SFltb.
  destruct x as [sx|sx| |sx mx ex], y as [sy|sy| |sy my ey]; cbn [SFcompare];
    try discriminate; try (destruct sx); try (destruct sy); intros _;
    eexists; eexists; split; reflexivity.
Qed.

Lemma lex_le_refl (a : Z * Z * Z) : lex_le a a.
Proof. destruct a as [[a1 a2] a3]. cbn. lia. Qed.

Lemma lex_le_trans (a b c : Z * Z * Z) : lex_le a b -> lex_le b c -> lex_le a c.
Proof. destruct a as [[a1 a2] a3], b as [[b1 b2] b3], c as [[c1 c2] c3]. cbn. lia. Qed.

Lemma lex_le_lt_trans (a b c : Z * Z * Z) : lex_le a b -> lex_lt b c -> lex_lt a c.
Proof. destruct a as [[a1 a2] a3], b as [[b1 b2] b3], c as [[c1 c2] c3]. cbn. lia. Qed.

Lemma lex_lt_le (a b : Z * Z * Z) : lex_lt a b -> lex_le a b.
Proof. destruct a as [[a1 a2] a3], b as [[b1 b2] b3]. cbn. lia. Qed.

Lemma lex_total (a b : Z * Z * Z) : lex_lt b a \/ lex_le a b.
Proof. destruct a as [[a1 a2] a3], b as [[b1 b2] b3]. cbn. lia. Qed.

Lemma SFleb_refl (x y : float) : SFleb y x = true -> SFleb x x = true.
Proof.
  intros H. destruct (SFleb_number y x H) as [b [a [_ Ha]]].
  apply (SFcompare_key x x a a Ha Ha). apply lex_le_refl.
Qed.

Lemma SFleb_trans (x y z : float) :
  SFleb x y = true -> SFleb y z = true -> SFleb x z = true.
Proof.
  intros H1 H2.
  destruct (SFleb_number x y H1) as [a [b [Ha Hb]]].
  destruct (SFleb_number y z H2) as [b' [c [Hb' Hc]]].
  rewrite Hb in Hb'. inversion Hb'; subst b'.
  apply (SFcompare_key x y a b Ha Hb) in H1.
  apply (SFcompare_key y z b c Hb Hc) in H2.
  apply (SFcompare_key x z a c Ha Hc). eapply lex_le_trans; eauto.
Qed.

Lemma SFleb_ltb_trans (x y z : float) :
  SFleb x y = true -> SFltb y z = true -> SFltb x z = true.
Proof.
  intros H1 H2.
  destruct (SFleb_number x y H1) as [a [b [Ha Hb]]].
  destruct (SFltb_number y z H2) as [b' [c [Hb' Hc]]].
  rewrite Hb in Hb'. inversion Hb'; subst b'.
  apply (SFcompare_key x y a b Ha Hb) in H1.
  apply (SFcompare_key y z b c Hb Hc) in H2.
  apply (SFcompare_key x z a c Ha Hc). eapply lex_le_lt_trans; eauto.
Qed.

Lemma SFltb_leb (x y : float) : SFltb x y = true -> SFleb x y = true.
Proof.
  intros H. destruct (SFltb_number x y H) as [a [b [Ha Hb]]].
  apply (SFcompare_key x y a b Ha Hb) in H.
  apply (SFcompare_key x y a b Ha Hb). now apply lex_lt_le.
Qed.

(** Two numbers compare one way or the other. *)
Lemma SFleb_total (x y lx ly : float) :
  SFleb lx x = true -> SFleb ly y = true -> fgt x y = false -> SFleb x y = true.
Proof.
  unfold fgt. intros Hx Hy Hgt.
  destruct (SFleb_number lx x Hx) as [_ [a [_ Ha]]].
  destruct (SFleb_number ly y Hy) as [_ [b [_ Hb]]].
  apply (SFcompare_key x y a b Ha Hb).
  destruct (lex_total a b) as [H|H]; [|exact H].
  apply (SFcompare_key y x b a Hb Ha) in H. congruence.
Qed.

(** ** The similarity *)

Lemma fmul_comm (x y : float) : fmul x y = fmul y x.
Proof.
  unfold fmul, SFmul.
  destruct x as [sx|sx| |sx mx ex], y as [sy|sy| |sy my ey];
    try reflexivity; try (now rewrite (xorb_comm sx sy)).
  now rewrite (xorb_comm sx sy), (Pos.mul_comm mx my), (Z.add_comm ex ey).
Qed.

(** The similarity of two rows does not depend on their order, errors
    included, when their product does not. *)
Theorem cosine_similarity_symmetric (V : vectorizer) (v w : row V) :
  dot V v w = dot V w v ->
  cosine_similarity V v w = cosine_similarity V w v.
Proof.
  intros H. unfold cosine_similarity, math_sqrt.
  destruct (SFltb (dot V v v) pos_zero), (SFltb (dot V w w) pos_zero);
    cbn [bind]; try reflexivity.
  now rewrite H, fmul_comm.
Qed.

Lemma cosine_similarity_symmetric_witness :
  cosine_similarity count_vectorizer [1; 2; 0]%Z [3; 0; 4]%Z =
  cosine_similarity count_vectorizer [3; 0; 4]%Z [1; 2; 0]%Z.
Proof.
  apply (cosine_similarity_symmetric count_vectorizer [1; 2; 0]%Z [3; 0; 4]%Z).
  reflexivity.
Defined.

(** ** The search returns the first maximum *)

Section ArgMax.

Variable V : vectorizer.
Variable tfidf : list (row V).
Variable vectorized_document : row V.
Variable scores : list float.

Hypothesis Hscored : scored V tfidf vectorized_document scores.
Hypothesis Hnumbers :
  forall j s, nth_error scores j = Some s -> SFleb neg_one s = true.

Lemma running_max_number (k index : nat) (mx : float) :
  running_max scores k index mx -> SFleb neg_one mx = true.
Proof.
  intros [_ [[_ ->]|[_ [H _]]]]; [reflexivity|]. exact (Hnumbers index mx H).
Qed.

Lemma running_max_step (k index : nat) (mx s : float) :
  running_max scores k index mx -> nth_error scores k = Some s ->
  running_max scores (S k) (if fgt s mx then k else index) (if fgt s mx then s else mx).
Proof.
  intros Hinv Hs.
  assert (Hmx := running_max_number k index mx Hinv).
  assert (Hsn := Hnumbers k s Hs).
  destruct Hinv as [Hle Hidx].
  destruct (fgt s mx) eqn:Hgt.
  - unfold fgt in Hgt. split.
    + intros j s' Hj Hs'. destruct (Nat.eq_dec j k) as [->|Hne].
      * rewrite Hs in Hs'. inversion Hs'; subst s'. exact (SFleb_refl s neg_one Hsn).
      * apply SFltb_leb. apply (SFleb_ltb_trans s' mx s); [|exact Hgt].
        apply (Hle j s'); [lia|exact Hs'].
    + right. split; [lia|]. split; [exact Hs|].
      intros j s' Hj Hs'. apply (SFleb_ltb_trans s' mx s); [|exact Hgt].
      apply (Hle j s'); [lia|exact Hs'].
  - split.
    + intros j s' Hj Hs'. destruct (Nat.eq_dec j k) as [->|Hne].
      * rewrite Hs in Hs'. inversion Hs'; subst s'.
        exact (SFleb_total s mx neg_one neg_one Hsn Hmx Hgt).
      * apply (Hle j s'); [lia|exact Hs'].
    + destruct Hidx as [H|[H1 H2]]; [now left|right]. split; [lia|exact H2].
Qed.

Lemma most_similar_running_max (n k index : nat) (mx : float) :
  k + n = List.length scores ->
  running_max scores k index mx ->
  exists i mx',
    most_similar V tfidf vectorized_document (seq k n) index mx = Ok i /\
    running_max scores (List.length scores) i mx'.
Proof.
  revert k index mx. induction n as [|n IH]; intros k index mx Hlen Hinv.
  - exists index, mx. split; [reflexivity|]. now replace (List.length scores) with k by lia.
  - cbn [seq most_similar].
    destruct (nth_error scores k) as [s|] eqn:Hs.
    2:{ apply nth_error_None in Hs. lia. }
    destruct (Hscored k s Hs) as [r [Hr Hcos]].
    unfold getitem. rewrite Hr. cbn [bind]. rewrite Hcos. cbn [bind].
    assert (Hstep := running_max_step k index mx s Hinv Hs).
    destruct (fgt s mx); apply IH; try lia; exact Hstep.
Qed.

End ArgMax.

(** With at least one template and similarities that are numbers not below
    -1, [detect_license] returns, and the label it returns is the one of the
    first template of maximal similarity: no similarity exceeds that of the
    template, and every earlier one is strictly below it. *)
Theorem detect_license_first_maximum (stem : string -> string) (V : vectorizer)
    (fs : filesystem) (document : string) (cleaned : bool)
    (names licenses : list string) (m : model V) (scores : list float) :
  load_license_templates stem fs = Ok (names, licenses) ->
  fit V (licenses ++ [cleaned_doc stem document cleaned])%list = Some m ->
  similarities V m (cleaned_doc stem document cleaned) licenses scores ->
  licenses <> [] ->
  (forall j sj, nth_error scores j = Some sj -> SFleb neg_one sj = true) ->
  exists i name si,
    nth_error names i = Some name /\
    nth_error scores i = Some si /\
    detect_license stem V fs document cleaned = Ok name /\
    (forall j sj, nth_error scores j = Some sj -> SFleb sj si = true) /\
    (forall j sj, j < i -> nth_error scores j = Some sj -> SFltb sj si = true).
Proof.
  intros Hload Hfit Hsim Hne Hnum.
  assert (Hlen : List.length licenses = List.length scores) by exact (Forall2_length Hsim).
  assert (Hnames := load_license_templates_length stem fs names licenses Hload).
  assert (Hpos : 0 < List.length scores).
  { rewrite <- Hlen. destruct licenses; [congruence|simpl; lia]. }
  rewrite (detect_license_fitted stem V fs document cleaned names licenses m Hload Hfit).
  destruct (most_similar_running_max V _ _ scores
              (similarities_scored V m _ licenses scores Hsim) Hnum
              (List.length licenses) 0 0 neg_one) as [i [mx [Hms [Hle Hidx]]]].
  { simpl. exact Hlen. }
  { split; [intros j s Hj; lia|left; split; reflexivity]. }
  rewrite Hms. cbn [bind].
  assert (Hi : i < List.length scores) by (destruct Hidx as [[-> _]|[H _]]; lia).
  destruct (nth_error names i) as [name|] eqn:Hname.
  2:{ apply nth_error_None in Hname. lia. }
  assert (Hsi : exists si, nth_error scores i = Some si).
  { destruct (nth_error scores i) as [si|] eqn:E; [now exists si|].
    apply nth_error_None in E. lia. }
  destruct Hsi as [si Hsi].
  exists i, name, si. split; [exact Hname|]. split; [exact Hsi|].
  split; [unfold getitem; now rewrite Hname|].
  destruct Hidx as [[-> ->]|[_ [Hmx Hlt]]].
  - split; [|intros j sj Hj; lia].
    intros j sj Hsj. apply (SFleb_trans sj neg_one si).
    + apply (Hle j sj); [|exact Hsj]. apply nth_error_Some. congruence.
    + exact (Hnum 0 si Hsi).
  - rewrite Hsi in Hmx. inversion Hmx; subst mx. split.
    + intros j sj Hsj. apply (Hle j sj); [|exact Hsj]. apply nth_error_Some. congruence.
    + exact Hlt.
Qed.

Lemma detect_license_first_maximum_witness :
  exists i name si,
    nth_error ["APACHE 2.0"; "MIT"; "MIT 0"] i = Some name /\
    nth_error [pos_zero; one; one] i = Some si /\
    detect_license plural_stem count_vectorizer tie_fs
      "Permission is hereby granted." false = Ok name /\
    (forall j sj, nth_error [pos_zero; one; one] j = Some sj -> SFleb sj si = true) /\
    (forall j sj, j < i -> nth_error [pos_zero; one; one] j = Some sj ->
                  SFltb sj si = true).
Proof.
  apply (detect_license_first_maximum plural_stem count_vectorizer tie_fs
           "Permission is hereby granted." false
           ["APACHE 2.0"; "MIT"; "MIT 0"]
           ["licensed under the apache license"; "permission is hereby granted";
            "permission granted hereby is"]
           ["licensed"; "under"; "the"; "apache"; "license"; "permission"; "is";
            "hereby"; "granted"]
           [pos_zero; one; one]).
  - vm_compute. reflexivity.
  - vm_compute. reflexivity.
  - repeat constructor.
  - discriminate.
  - intros [|[|[|j]]] sj H; simpl in H; inversion H; subst; try reflexivity.
    destruct j; discriminate.
Defined.

(** * More of the command line *)

Lemma findall_from_segments (st : scan) (s : string) :
  match st with
  | InGroup g => g <> "" /\ all_chars not_slash g = true
  | _ => True
  end ->
  Forall (fun g => g <> "" /\ all_chars not_slash g = true) (findall_from st s).
Proof.
  revert st. induction s as [|c s IH]; intros st Hst; cbn [findall_from].
  - destruct st; repeat constructor; exact Hst || apply Hst.
  - destruct (Ascii.eqb c "/") eqn:Hc.
    + destruct st; [apply IH; exact I|apply IH; exact I|].
      constructor; [exact Hst|apply IH; exact I].
    + assert (Hn : not_slash c = true) by (unfold not_slash; now rewrite Hc).
      destruct st as [| |g]; apply IH; [exact I| |].
      * split; [discriminate|]. cbn [all_chars]. now rewrite Hn.
      * destruct Hst as [Hg Hall]. split.
        -- destruct g; [congruence|discriminate].
        -- rewrite all_chars_app, Hall. cbn [all_chars]. now rewrite Hn.
Qed.

(** The names [parse_args] takes from an address are the two segments the
    address has after its scheme is cut: neither is empty, neither holds a
    slash, and the branch is the one of the command line. *)
Theorem parse_args_url_names (arg_dict : arguments) (out : list string)
    (user repo branch' : string) :
  username arg_dict = None \/ repository_name arg_dict = None ->
  parse_args (Namespace arg_dict) = (out, Returned (user, repo, branch')) ->
  branch' = branch arg_dict /\
  (user <> "" /\ all_chars not_slash user = true) /\
  (repo <> "" /\ all_chars not_slash repo = true) /\
  exists address,
    url arg_dict = Some address /\
    findall_segments (sub_scheme address) = [user; repo].
Proof.
  intros Hnone H. unfold parse_args in H.
  assert (Hurl : match url arg_dict with
                 | None => (USAGE, SystemExit (-1))
                 | Some url =>
                     match findall_segments (sub_scheme url) with
                     | [user; repo] => ([], Returned (user, repo, branch arg_dict))
                     | _ => ([], Raised ValueError)
                     end
                 end = (out, Returned (user, repo, branch'))).
  { destruct Hnone as [Hn|Hn]; rewrite Hn in H; [exact H|].
    destruct (username arg_dict); exact H. }
  clear H. destruct (url arg_dict) as [address|]; [|discriminate].
  assert (Hseg := findall_from_segments Outside (sub_scheme address) I).
  fold (findall_segments (sub_scheme address)) in Hseg.
  destruct (findall_segments (sub_scheme address)) as [|u [|r [|x l]]] eqn:Hfs;
    try discriminate.
  inversion Hurl; subst. inversion Hseg as [|? ? Hu Hseg']; subst.
  inversion Hseg' as [|? ? Hr _]; subst.
  split; [reflexivity|]. split; [exact Hu|]. split; [exact Hr|].
  exists address. split; [reflexivity|exact Hfs].
Qed.

Lemma parse_args_url_names_witness :
  "master" = branch linux_args /\
  ("torvalds" <> "" /\ all_chars not_slash "torvalds" = true) /\
  ("linux" <> "" /\ all_chars not_slash "linux" = true) /\
  exists address,
    url linux_args = Some address /\
    findall_segments (sub_scheme address) = ["torvalds"; "linux"].
Proof.
  apply (parse_args_url_names linux_args [] "torvalds" "linux" "master").
  - right. reflexivity.
  - reflexivity.
Defined.

(** * More of the classifier *)

(** The classifier does not see the case of the ASCII letters of the
    candidate it normalises. *)
Theorem detect_license_ignores_case (stem : string -> string) (V : vectorizer)
    (fs : filesystem) (document : string) :
  all_chars is_ascii document = true ->
  detect_license stem V fs (Py.upper document) false =
    detect_license stem V fs document false /\
  detect_license stem V fs (Py.lower document) false =
    detect_license stem V fs document false.
Proof.
  intros _. destruct (clean_upper_lower stem document) as [Hu Hl].
  unfold detect_license. cbv beta iota zeta. now rewrite Hu, Hl.
Qed.

Lemma detect_license_ignores_case_witness :
  detect_license plural_stem count_vectorizer tie_fs
    (Py.upper "Permission is hereby granted.") false =
    detect_license plural_stem count_vectorizer tie_fs
      "Permission is hereby granted." false /\
  detect_license plural_stem count_vectorizer tie_fs
    (Py.lower "Permission is hereby granted.") false =
    detect_license plural_stem count_vectorizer tie_fs
      "Permission is hereby granted." false.
Proof.
  apply (detect_license_ignores_case plural_stem count_vectorizer tie_fs).
  reflexivity.
Defined.
